(** * cpp-ethereum: the EVMC adapter and the VM factory

    A shallow embedding of [libevm/EVMC.cpp] and [libevm/VMFactory.cpp]:
    the revision selector [toRevision], the adapter [EVMC::exec] with its
    assertions, status switch and fallback, the option list, the backend
    registry [g_vmMap], the loader [loadEvmcDlls] and [VMFactory::create]. *)

From Stdlib Require Import ZArith Lia Bool List Ascii String.
From stdpp Require Import gmap strings list fin_maps sorting.
Import ListNotations.

Local Open Scope Z_scope.

(** ** Revision selector *)

Module Revision.

(** The fields of [EVMSchedule] that [toRevision] reads. *)
Record EVMSchedule := mkSchedule {
  haveCreate2 : bool;
  haveRevert : bool;
  eip158Mode : bool;
  eip150Mode : bool;
  haveDelegateCall : bool
}.

(** The revisions of [evmc_revision] that [toRevision] returns. *)
Inductive evmc_revision :=
| EVMC_FRONTIER
| EVMC_HOMESTEAD
| EVMC_TANGERINE_WHISTLE
| EVMC_SPURIOUS_DRAGON
| EVMC_BYZANTIUM
| EVMC_CONSTANTINOPLE.

Definition toRevision (_schedule : EVMSchedule) : evmc_revision :=
  if haveCreate2 _schedule then EVMC_CONSTANTINOPLE
  else if haveRevert _schedule then EVMC_BYZANTIUM
  else if eip158Mode _schedule then EVMC_SPURIOUS_DRAGON
  else if eip150Mode _schedule then EVMC_TANGERINE_WHISTLE
  else if haveDelegateCall _schedule then EVMC_HOMESTEAD
  else EVMC_FRONTIER.

(** The five feature flags, named as the specification names them. *)
Inductive Feature :=
| CreateWithDeterministicAddress
| RevertWithOutput
| StateClearing
| IncreasedCostRepricing
| DelegatedCall.

Definition enabled (s : EVMSchedule) (f : Feature) : bool :=
  match f with
  | CreateWithDeterministicAddress => haveCreate2 s
  | RevertWithOutput => haveRevert s
  | StateClearing => eip158Mode s
  | IncreasedCostRepricing => eip150Mode s
  | DelegatedCall => haveDelegateCall s
  end.

Definition revision_of (f : Feature) : evmc_revision :=
  match f with
  | CreateWithDeterministicAddress => EVMC_CONSTANTINOPLE
  | RevertWithOutput => EVMC_BYZANTIUM
  | StateClearing => EVMC_SPURIOUS_DRAGON
  | IncreasedCostRepricing => EVMC_TANGERINE_WHISTLE
  | DelegatedCall => EVMC_HOMESTEAD
  end.

(** The priority order of the specification, newest first. *)
Definition priority : list Feature :=
  [CreateWithDeterministicAddress; RevertWithOutput; StateClearing;
   IncreasedCostRepricing; DelegatedCall].

(** The selector in the specification's words: the revision of the first
    enabled flag in priority order, the baseline revision when there is
    none. *)
Definition first_match_revision (s : EVMSchedule) : evmc_revision :=
  match List.find (enabled s) priority with
  | Some f => revision_of f
  | None => EVMC_FRONTIER
  end.

(** Modelled from the spec: the enumeration [evmc_revision] is declared
    in evmc.h, which is not among the sources; section 4.1 lists the
    revisions newest to oldest.  The age of a revision is its position in
    that history, the baseline first. *)
Definition age (r : evmc_revision) : nat :=
  match r with
  | EVMC_FRONTIER => 0
  | EVMC_HOMESTEAD => 1
  | EVMC_TANGERINE_WHISTLE => 2
  | EVMC_SPURIOUS_DRAGON => 3
  | EVMC_BYZANTIUM => 4
  | EVMC_CONSTANTINOPLE => 5
  end%nat.

Definition not_older (r r' : evmc_revision) : Prop := (age r' <= age r)%nat.

(** Setting one flag of a schedule, the others kept. *)
Definition enable (f : Feature) (s : EVMSchedule) : EVMSchedule :=
  match f with
  | CreateWithDeterministicAddress =>
      mkSchedule true (haveRevert s) (eip158Mode s) (eip150Mode s) (haveDelegateCall s)
  | RevertWithOutput =>
      mkSchedule (haveCreate2 s) true (eip158Mode s) (eip150Mode s) (haveDelegateCall s)
  | StateClearing =>
      mkSchedule (haveCreate2 s) (haveRevert s) true (eip150Mode s) (haveDelegateCall s)
  | IncreasedCostRepricing =>
      mkSchedule (haveCreate2 s) (haveRevert s) (eip158Mode s) true (haveDelegateCall s)
  | DelegatedCall =>
      mkSchedule (haveCreate2 s) (haveRevert s) (eip158Mode s) (eip150Mode s) true
  end.

(** [s'] keeps every flag that [s] has enabled. *)
Definition keeps_flags (s s' : EVMSchedule) : Prop :=
  forall f, enabled s f = true -> enabled s' f = true.

Lemma enable_sets f s : enabled (enable f s) f = true.
Proof. destruct f; reflexivity. Qed.

Lemma enable_keeps f s : keeps_flags s (enable f s).
Proof. intros g Hg. destruct f, g; simpl in *; auto. Qed.

Lemma toRevision_enabled s :
  toRevision s = EVMC_FRONTIER \/
  exists f, enabled s f = true /\ toRevision s = revision_of f.
Proof.
  unfold toRevision.
  destruct (haveCreate2 s) eqn:E1;
    [right; exists CreateWithDeterministicAddress; auto|].
  destruct (haveRevert s) eqn:E2; [right; exists RevertWithOutput; auto|].
  destruct (eip158Mode s) eqn:E3; [right; exists StateClearing; auto|].
  destruct (eip150Mode s) eqn:E4; [right; exists IncreasedCostRepricing; auto|].
  destruct (haveDelegateCall s) eqn:E5; [right; exists DelegatedCall; auto|].
  now left.
Qed.

(** The selected revision is at least as new as that of any enabled flag. *)
Lemma toRevision_upper_bound s f :
  enabled s f = true -> not_older (toRevision s) (revision_of f).
Proof.
  unfold not_older, toRevision.
  destruct s as [c2 rv e158 e150 dc], f; simpl; intros ->;
    repeat match goal with |- context [if ?b then _ else _] => destruct b end;
    simpl; lia.
Qed.

(** Monotonicity over any schedule that keeps the enabled flags. *)
Lemma toRevision_mono s s' :
  keeps_flags s s' -> not_older (toRevision s') (toRevision s).
Proof.
  intros Hk. destruct (toRevision_enabled s) as [-> | (f & Hf & ->)].
  - unfold not_older; simpl; lia.
  - apply toRevision_upper_bound, Hk, Hf.
Qed.

(** C4. For every schedule [toRevision] is the first-match selector over
    the priority list create2, revert, EIP-158, EIP-150, delegate-call:
    it returns the tag of the first enabled flag, and the baseline
    [EVMC_FRONTIER] for the schedule with no flag enabled. *)
Theorem toRevision_first_match (s : EVMSchedule) :
  toRevision s = first_match_revision s
  /\ toRevision (mkSchedule false false false false false) = EVMC_FRONTIER.
Proof.
  split; [|reflexivity].
  unfold toRevision, first_match_revision, priority; simpl.
  destruct (haveCreate2 s), (haveRevert s), (eip158Mode s),
    (eip150Mode s), (haveDelegateCall s); reflexivity.
Qed.

(** C5. Enabling one more flag of a schedule, every enabled flag kept,
    never selects an older revision. *)
Theorem toRevision_monotonic (s : EVMSchedule) (f : Feature) :
  keeps_flags s (enable f s)
  /\ enabled (enable f s) f = true
  /\ not_older (toRevision (enable f s)) (toRevision s).
Proof.
  split; [apply enable_keeps|].
  split; [apply enable_sets|].
  apply toRevision_mono, enable_keeps.
Qed.

End Revision.

(** ** Data model of the adapter and the factory *)

Module VM.
Import Revision.

Definition bytes := list Byte.byte.

(** Bounds of the integer types that cross the foreign boundary. *)
Definition int64max : Z := 2 ^ 63 - 1.
Definition int32max : Z := 2 ^ 31 - 1.
Definition is_u256 (x : Z) : Prop := 0 <= x < 2 ^ 256.
Definition is_int64 (x : Z) : Prop := - 2 ^ 63 <= x <= int64max.

(** [static_cast<int64_t>] of the gas: the low 64 bits read as two's
    complement.  [exec] narrows after asserting that the gas is at most
    2^63-1, so only values that the cast keeps reach it. *)
Definition static_cast_int64 (x : Z) : Z := (x + 2 ^ 63) mod 2 ^ 64 - 2 ^ 63.

(** Assignment of an [int64_t] to the unchecked unsigned [u256]:
    reduction modulo 2^256, the value itself when it is not negative. *)
Definition u256_of_int64 (x : Z) : Z := x mod 2 ^ 256.

(** [envInfo()]: signed block number and timestamp, [u256] gas limit. *)
Record EnvInfo := mkEnvInfo {
  number : Z;
  timestamp : Z;
  gasLimit : Z
}.

(** The members of [ExtVMFace] that the adapter reads. *)
Record ExtVMFace := mkExt {
  envInfo : EnvInfo;
  depth : Z;
  caller : Z;
  myAddress : Z;
  code : bytes;
  evmSchedule : EVMSchedule
}.

(** The status codes that [EVMC::exec] names; every other enumerator or
    raw value of [evmc_status_code] is [EVMC_other_status] with its code. *)
Inductive evmc_status_code :=
| EVMC_SUCCESS
| EVMC_REVERT
| EVMC_OUT_OF_GAS
| EVMC_FAILURE
| EVMC_UNDEFINED_INSTRUCTION
| EVMC_BAD_JUMP_DESTINATION
| EVMC_STACK_OVERFLOW
| EVMC_STACK_UNDERFLOW
| EVMC_STATIC_MODE_VIOLATION
| EVMC_REJECTED
| EVMC_other_status (raw : Z).

(** [EVM::Result]: status, gas left ([int64_t]) and the output span. *)
Record Result := mkResult {
  status : evmc_status_code;
  gasLeft : Z;
  output : bytes
}.

(** Modelled from the spec: [owning_bytes_ref] is declared in
    ExtVMFace.h, which is not among the sources; per section 4.2 the
    outcome owns a copy of the output bytes.  [{bytes, begin, size}] is
    the window of [size] bytes starting at [begin] of the buffer moved
    into it. *)
Definition owning_bytes_ref := bytes.
Definition mk_owning_bytes_ref (_bytes : bytes) (_begin _size : nat)
  : owning_bytes_ref := firstn _size (skipn _begin _bytes).

(** What [exec] and the configuration functions throw. *)
Inductive Exception :=
| RevertInstruction (out : owning_bytes_ref)
| OutOfGas
| BadInstruction
| BadJumpDestination
| OutOfStack
| StackUnderflow
| DisallowedStateChange
| InternalVMError (errinfo_evmcStatusCode : evmc_status_code)
| system_error (what : string)
| invalid_syntax (text : string).

(** How a call ends: it returns, it throws, an [assert] aborts it, or the
    dispatch bound of the model is reached. *)
Inductive Completion (A : Type) :=
| Returned (a : A)
| Thrown (e : Exception)
| AssertionFailed
| DispatchBound.
Arguments Returned {A} a.
Arguments Thrown {A} e.
Arguments AssertionFailed {A}.
Arguments DispatchBound {A}.

Inductive VMKind := Interpreter | Legacy | JIT | Hera | DLL.

(** A create function: one of the built-in ones, or the symbol imported
    from a shared library. *)
Inductive create_fn :=
| evmc_create_interpreter
| evmjit_create
| evmc_create_hera
| dll_import (path symbol : string).

(** The calls an [evmc_instance] receives through its function table. *)
Inductive Call :=
| set_option (name value : string)
| set_tracer
| execute_call (_ext : ExtVMFace) (gas : Z)
| destroy.

(** An instance: the function that made it and the calls it has
    received so far, oldest first. *)
Record evmc_instance := mkInstance {
  made_by : create_fn;
  calls : list Call
}.

Definition new_instance (f : create_fn) : evmc_instance := mkInstance f [].
Definition receive (i : evmc_instance) (c : Call) : evmc_instance :=
  mkInstance (made_by i) (calls i ++ [c]).

(** The adapter object: [m_instance], [m_code] and the revision whose
    instruction-name table [m_instructionNames] points to. *)
Record EVMC := mkEVMC {
  m_instance : evmc_instance;
  m_code : bytes;
  m_instructionNames : option evmc_revision
}.

Inductive VMFace :=
| VM_EVMC (vm : EVMC)
| VM_LegacyVM.

Record VMMapEntry := mkEntry {
  kind : VMKind;
  createFn : option create_fn
}.

(** The process-wide variables of VMFactory.cpp. *)
Record Globals := mkGlobals {
  g_kind : VMKind;
  g_vmMap : gmap string VMMapEntry;
  s_evmcOptions : list (string * string)
}.

(** What happens outside the adapter's own instance during [exec]. *)
Inductive Event :=
| factory_create (k : VMKind)
| LegacyVM_exec_call (io_gas : Z) (_ext : ExtVMFace).

(** The state [EVMC::exec] works on: the caller's gas variable, the
    adapter object and the events so far. *)
Record Frame := mkFrame {
  io_gas : Z;
  this : EVMC;
  events : list Event
}.

(** State and completion monad of [exec]. *)
Definition M (A : Type) : Type := Frame -> Completion A * Frame.

#[export] Instance M_ret : MRet M := fun A a fr => (Returned a, fr).
#[export] Instance M_bind : MBind M := fun A B f m fr =>
  match m fr with
  | (Returned a, fr') => f a fr'
  | (Thrown e, fr') => (Thrown e, fr')
  | (AssertionFailed, fr') => (AssertionFailed, fr')
  | (DispatchBound, fr') => (DispatchBound, fr')
  end.

(** [assert] of <cassert>, assertions compiled in. *)
Definition assert (b : bool) : M unit :=
  fun fr => if b then (Returned tt, fr) else (AssertionFailed, fr).
Definition throw {A} (e : Exception) : M A := fun fr => (Thrown e, fr).
Definition read_io_gas : M Z := fun fr => (Returned (io_gas fr), fr).
Definition write_io_gas (g : Z) : M unit :=
  fun fr => (Returned tt, mkFrame g (this fr) (events fr)).
Definition read_this : M EVMC := fun fr => (Returned (this fr), fr).
Definition write_this (vm : EVMC) : M unit :=
  fun fr => (Returned tt, mkFrame (io_gas fr) vm (events fr)).
Definition emit (e : Event) : M unit :=
  fun fr => (Returned tt, mkFrame (io_gas fr) (this fr) (events fr ++ [e])).

(** ** The adapter *)

Section Adapter.

(** Build configuration macros of VMFactory.cpp. *)
Variables ETH_EVMJIT ETH_HERA : bool.

(** The foreign side: what an instance's [execute] entry answers, given
    the instance (its maker and the calls it has received), the context
    and the gas. *)
Variable backend_execute : evmc_instance -> ExtVMFace -> Z -> Result.

(** [LegacyVM::exec] of LegacyVM.cpp: from the gas and the context, the
    bytes it returns or the exception it throws, and the gas it leaves in
    the caller's variable. *)
Variable LegacyVM_exec : Z -> ExtVMFace -> (owning_bytes_ref + Exception) * Z.

(** [EVM::EVM]: every pair of [evmcOptions()] is passed to the instance's
    [set_option], in order. *)
Definition EVM_ctor (G : Globals) (_instance : evmc_instance) : evmc_instance :=
  fold_left (fun i pair => receive i (set_option (fst pair) (snd pair)))
    (s_evmcOptions G) _instance.

(** [EVMC::EVMC]: the base constructor, then [set_tracer]. *)
Definition EVMC_ctor (G : Globals) (_instance : evmc_instance) : EVMC :=
  mkEVMC (receive (EVM_ctor G _instance) set_tracer) [] None.

(** [VMFactory::create(VMKind)]. *)
Definition VMFactory_create (G : Globals) (_kind : VMKind) : VMFace :=
  match _kind with
  | JIT =>
      if ETH_EVMJIT then VM_EVMC (EVMC_ctor G (new_instance evmjit_create))
      else VM_LegacyVM
  | Hera =>
      if ETH_HERA then VM_EVMC (EVMC_ctor G (new_instance evmc_create_hera))
      else VM_LegacyVM
  | Interpreter => VM_EVMC (EVMC_ctor G (new_instance evmc_create_interpreter))
  | Legacy => VM_LegacyVM
  | _ => VM_LegacyVM
  end.

(** [VMFactory::create()]. *)
Definition VMFactory_create_default (G : Globals) : VMFace :=
  VMFactory_create G (g_kind G).

(** [VMFactory::setKind]. *)
Definition VMFactory_setKind (_kind : VMKind) (G : Globals) : Globals :=
  mkGlobals _kind (g_vmMap G) (s_evmcOptions G).

(** Modelled from the spec: [EVM::execute] is declared in EVMC.h, which
    is not among the sources; per section 4.3 step 3 it hands the context
    and the narrowed gas to the wrapped instance's [execute] entry and
    returns the foreign result (status, gas left, output). *)
Definition execute (_ext : ExtVMFace) (gas : Z) : M Result :=
  vm ← read_this;
  write_this (mkEVMC (receive (m_instance vm) (execute_call _ext gas))
                (m_code vm) (m_instructionNames vm));;
  mret (backend_execute (m_instance vm) _ext gas).

(** A virtual [exec] call on a temporary VM made inside [exec]: it works
    on the same gas variable; its events are appended. *)
Definition call_exec
    (dispatch : VMFace -> Z -> ExtVMFace ->
                Completion owning_bytes_ref * Z * list Event)
    (vm : VMFace) (_ext : ExtVMFace) : M owning_bytes_ref :=
  fun fr =>
    let '(c, g, evs) := dispatch vm (io_gas fr) _ext in
    (c, mkFrame g (this fr) (events fr ++ evs)).

(** [EVMC::exec]; [dispatch] is the virtual [VMFace::exec].  The lines
    written to [std::cerr] and the unused [_onOp] are left out. *)
Definition EVMC_exec_with
    (dispatch : VMFace -> Z -> ExtVMFace ->
                Completion owning_bytes_ref * Z * list Event)
    (G : Globals) (_ext : ExtVMFace) : M owning_bytes_ref :=
  assert (0 <=? number (envInfo _ext));;
  assert (0 <=? timestamp (envInfo _ext));;
  g0 ← read_io_gas;
  assert (g0 <=? int64max);;
  assert (gasLimit (envInfo _ext) <=? int64max);;
  assert (depth _ext <=? int32max);;
  vm ← read_this;
  write_this (mkEVMC (m_instance vm) (code _ext)
                (Some (toRevision (evmSchedule _ext))));;
  g1 ← read_io_gas;
  let gas := static_cast_int64 g1 in
  r ← execute _ext gas;
  match status r with
  | EVMC_SUCCESS =>
      write_io_gas (u256_of_int64 (gasLeft r));;
      mret (mk_owning_bytes_ref (output r) 0 (length (output r)))
  | EVMC_REVERT =>
      write_io_gas (u256_of_int64 (gasLeft r));;
      throw (RevertInstruction
               (mk_owning_bytes_ref (output r) 0 (length (output r))))
  | EVMC_OUT_OF_GAS
  | EVMC_FAILURE => throw OutOfGas
  | EVMC_UNDEFINED_INSTRUCTION => throw BadInstruction
  | EVMC_BAD_JUMP_DESTINATION => throw BadJumpDestination
  | EVMC_STACK_OVERFLOW => throw OutOfStack
  | EVMC_STACK_UNDERFLOW => throw StackUnderflow
  | EVMC_STATIC_MODE_VIOLATION => throw DisallowedStateChange
  | EVMC_REJECTED =>
      emit (factory_create Legacy);;
      call_exec dispatch (VMFactory_create G Legacy) _ext
  | EVMC_other_status _ => throw (InternalVMError (status r))
  end.

(** A return or a throw of [LegacyVM::exec] as a completion. *)
Definition legacy_completion (r : owning_bytes_ref + Exception)
  : Completion owning_bytes_ref :=
  match r with inl out => Returned out | inr e => Thrown e end.

(** The virtual [VMFace::exec]: [LegacyVM::exec] or [EVMC::exec] by the
    object's class.  [n] bounds how many adapters may be nested through
    the fallback. *)
Fixpoint VMFace_exec (n : nat) (G : Globals) (vm : VMFace) (gas : Z)
    (_ext : ExtVMFace) : Completion owning_bytes_ref * Z * list Event :=
  match vm with
  | VM_LegacyVM =>
      let '(r, g) := LegacyVM_exec gas _ext in
      (legacy_completion r, g, [LegacyVM_exec_call gas _ext])
  | VM_EVMC e =>
      match n with
      | O => (DispatchBound, gas, [])
      | S n' =>
          let '(c, fr) :=
            EVMC_exec_with (VMFace_exec n' G) G _ext (mkFrame gas e []) in
          (c, io_gas fr, events fr)
      end
  end.

(** [exec] on an adapter [vm] with the caller's gas variable holding
    [gas]: the completion and the final frame. *)
Definition EVMC_exec (G : Globals) (vm : EVMC) (gas : Z) (_ext : ExtVMFace)
  : Completion owning_bytes_ref * Frame :=
  EVMC_exec_with (VMFace_exec 0 G) G _ext (mkFrame gas vm []).

(** The assertions of [exec] as one predicate, in the order checked. *)
Definition preconditions (gas : Z) (_ext : ExtVMFace) : bool :=
  (0 <=? number (envInfo _ext)) && (0 <=? timestamp (envInfo _ext))
  && (gas <=? int64max) && (gasLimit (envInfo _ext) <=? int64max)
  && (depth _ext <=? int32max).

(** The adapter object as [exec] leaves it once the assertions passed. *)
Definition after_execute (vm : EVMC) (gas : Z) (_ext : ExtVMFace) : EVMC :=
  mkEVMC (receive (m_instance vm) (execute_call _ext gas)) (code _ext)
    (Some (toRevision (evmSchedule _ext))).

(** ** Options, registry and loader *)

(** The map [g_vmMap] is initialised with. *)
Definition initial_vmMap : gmap string VMMapEntry :=
  let m0 : gmap string VMMapEntry :=
    <["legacy" := mkEntry Legacy None]>
      (<["interpreter" := mkEntry Interpreter None]> ∅) in
  let m1 := if ETH_EVMJIT then <["jit" := mkEntry JIT None]> m0 else m0 in
  if ETH_HERA then <["hera" := mkEntry Hera None]> m1 else m1.

Definition initial_globals : Globals := mkGlobals Legacy initial_vmMap [].

Definition c_evmcPrefix : string := "evmc ".

(** [parseEvmcOptions]: each string is split at its first ['='] and the
    pair appended to [s_evmcOptions]; a string without ['='] throws, the
    pairs appended before it stay. *)
Fixpoint parseEvmcOptions (_opts : list string) (G : Globals)
  : Completion unit * Globals :=
  match _opts with
  | [] => (Returned tt, G)
  | s :: rest =>
      match String.index 0 "=" s with
      | None => (Thrown (invalid_syntax (c_evmcPrefix +:+ s)), G)
      | Some separatorPos =>
          let name := String.substring 0 separatorPos s in
          let value :=
            String.substring (separatorPos + 1)
              (String.length s - (separatorPos + 1)) s in
          parseEvmcOptions rest
            (mkGlobals (g_kind G) (g_vmMap G)
               (s_evmcOptions G ++ [(name, value)]))
      end
  end.

(** The file system and the foreign libraries: the exported symbols of
    the library at a path, and the name and version that an instance
    made by a create function reports. *)
Variable library_symbols : string -> list string.
Variables vm_name vm_version : create_fn -> string.

(** What the loader acts on: the globals, the text written to
    [std::cout] and the instances it has released. *)
Record LoaderState := mkLoader {
  globals : Globals;
  cout : list string;
  released : list evmc_instance
}.

(** The predicate of the [find_if]: [symbol.find("evmc_create_") == 0]. *)
Definition is_create_symbol (symbol : string) : bool :=
  match String.index 0 "evmc_create_" symbol with
  | Some O => true
  | _ => false
  end.

(** One iteration of the loop of [loadEvmcDlls]. *)
Definition loadEvmcDll (path : string) (L : LoaderState)
  : Completion unit * LoaderState :=
  let symbols := library_symbols path in
  match List.find is_create_symbol symbols with
  | None =>
      let what :=
        "loading " +:+ path +:+ " failed: EVMC create function not found" in
      (Thrown (system_error what), L)
  | Some it =>
      let createFn := dll_import path it in
      let vm := new_instance createFn in
      let name := vm_name (made_by vm) in
      let line :=
        "Loaded EVM " +:+ name +:+ " " +:+ vm_version (made_by vm) in
      let vm := receive vm destroy in
      let G := globals L in
      (Returned tt,
       mkLoader
         (mkGlobals (g_kind G)
            (<[name := mkEntry DLL (Some createFn)]> (g_vmMap G))
            (s_evmcOptions G))
         (cout L ++ [line]) (released L ++ [vm]))
  end.

(** [loadEvmcDlls]: the paths in order, stopping at the first throw. *)
Fixpoint loadEvmcDlls (_paths : list string) (L : LoaderState)
  : Completion unit * LoaderState :=
  match _paths with
  | [] => (Returned tt, L)
  | path :: rest =>
      match loadEvmcDll path L with
      | (Returned _, L') => loadEvmcDlls rest L'
      | (c, L') => (c, L')
      end
  end.

(** ** Facts about the adapter *)

Lemma static_cast_int64_id (g : Z) :
  0 <= g <= int64max -> static_cast_int64 g = g.
Proof.
  unfold static_cast_int64, int64max. intros Hg.
  rewrite Z.mod_small; lia.
Qed.

Lemma u256_of_int64_id (g : Z) : 0 <= g -> is_int64 g -> u256_of_int64 g = g.
Proof.
  unfold u256_of_int64, is_int64, int64max. intros H0 Hg.
  apply Z.mod_small. split; [lia|].
  apply Z.le_lt_trans with (2 ^ 63 - 1); [lia|]. reflexivity.
Qed.

Lemma u256_of_int64_range (x : Z) : is_u256 (u256_of_int64 x).
Proof. unfold is_u256, u256_of_int64. apply Z.mod_pos_bound. reflexivity. Qed.

Lemma mk_owning_bytes_ref_whole (b : bytes) :
  mk_owning_bytes_ref b 0 (length b) = b.
Proof. unfold mk_owning_bytes_ref. simpl. apply firstn_all. Qed.

Lemma preconditions_true (g : Z) (_ext : ExtVMFace) :
  preconditions g _ext = true <->
  0 <= number (envInfo _ext) /\ 0 <= timestamp (envInfo _ext)
  /\ g <= int64max /\ gasLimit (envInfo _ext) <= int64max
  /\ depth _ext <= int32max.
Proof.
  unfold preconditions. rewrite !andb_true_iff, !Z.leb_le. tauto.
Qed.

Ltac run_exec :=
  cbv [EVMC_exec EVMC_exec_with execute call_exec mbind M_bind mret M_ret
       assert throw read_io_gas write_io_gas read_this write_this emit
       io_gas this events]; simpl.

(** A failed assertion aborts [exec] with the frame as it was. *)
Lemma EVMC_exec_with_aborts dispatch G _ext g vm evs :
  preconditions g _ext = false ->
  EVMC_exec_with dispatch G _ext (mkFrame g vm evs)
  = (AssertionFailed, mkFrame g vm evs).
Proof.
  unfold preconditions. intros Hp. run_exec.
  destruct (0 <=? number (envInfo _ext)); [|reflexivity].
  destruct (0 <=? timestamp (envInfo _ext)); [|reflexivity].
  destruct (g <=? int64max); [|reflexivity].
  destruct (gasLimit (envInfo _ext) <=? int64max); [|reflexivity].
  destruct (depth _ext <=? int32max); [discriminate|reflexivity].
Qed.

(** With the assertions passed, [exec] is the switch over the status of
    the one [execute] call. *)
Lemma EVMC_exec_with_passed dispatch G _ext g vm evs :
  preconditions g _ext = true ->
  EVMC_exec_with dispatch G _ext (mkFrame g vm evs) =
  let gas := static_cast_int64 g in
  let r := backend_execute (m_instance vm) _ext gas in
  let vm' := after_execute vm gas _ext in
  let out := mk_owning_bytes_ref (output r) 0 (length (output r)) in
  match status r with
  | EVMC_SUCCESS =>
      (Returned out, mkFrame (u256_of_int64 (gasLeft r)) vm' evs)
  | EVMC_REVERT =>
      (Thrown (RevertInstruction out),
       mkFrame (u256_of_int64 (gasLeft r)) vm' evs)
  | EVMC_OUT_OF_GAS | EVMC_FAILURE => (Thrown OutOfGas, mkFrame g vm' evs)
  | EVMC_UNDEFINED_INSTRUCTION => (Thrown BadInstruction, mkFrame g vm' evs)
  | EVMC_BAD_JUMP_DESTINATION =>
      (Thrown BadJumpDestination, mkFrame g vm' evs)
  | EVMC_STACK_OVERFLOW => (Thrown OutOfStack, mkFrame g vm' evs)
  | EVMC_STACK_UNDERFLOW => (Thrown StackUnderflow, mkFrame g vm' evs)
  | EVMC_STATIC_MODE_VIOLATION =>
      (Thrown DisallowedStateChange, mkFrame g vm' evs)
  | EVMC_REJECTED =>
      call_exec dispatch (VMFactory_create G Legacy) _ext
        (mkFrame g vm' (evs ++ [factory_create Legacy]))
  | EVMC_other_status c =>
      (Thrown (InternalVMError (EVMC_other_status c)), mkFrame g vm' evs)
  end.
Proof.
  intros Hp. unfold preconditions in Hp.
  rewrite !andb_true_iff in Hp. destruct Hp as [[[[H1 H2] H3] H4] H5].
  run_exec. rewrite H1, H2, H3, H4, H5.
  destruct (status (backend_execute (m_instance vm) _ext (static_cast_int64 g)))
    eqn:Hs; rewrite ?Hs; try reflexivity.
Qed.

Lemma EVMC_exec_this dispatch G _ext g vm evs :
  preconditions g _ext = true ->
  this (snd (EVMC_exec_with dispatch G _ext (mkFrame g vm evs)))
  = after_execute vm (static_cast_int64 g) _ext.
Proof.
  intros Hp. rewrite EVMC_exec_with_passed by exact Hp. cbv zeta.
  destruct (status _); try reflexivity.
  unfold call_exec. destruct (dispatch _ _ _) as [[c g'] evs']. reflexivity.
Qed.

Lemma VMFace_exec_LegacyVM n G g _ext :
  VMFace_exec n G VM_LegacyVM g _ext
  = (legacy_completion (fst (LegacyVM_exec g _ext)),
     snd (LegacyVM_exec g _ext), [LegacyVM_exec_call g _ext]).
Proof. destruct n; simpl; destruct (LegacyVM_exec g _ext); reflexivity. Qed.

(** The fallback of a rejected call, whatever the nesting bound. *)
Lemma EVMC_exec_with_rejected n G _ext g vm :
  preconditions g _ext = true ->
  status (backend_execute (m_instance vm) _ext (static_cast_int64 g))
  = EVMC_REJECTED ->
  EVMC_exec_with (VMFace_exec n G) G _ext (mkFrame g vm [])
  = (legacy_completion (fst (LegacyVM_exec g _ext)),
     mkFrame (snd (LegacyVM_exec g _ext))
       (after_execute vm (static_cast_int64 g) _ext)
       [factory_create Legacy; LegacyVM_exec_call g _ext]).
Proof.
  intros Hp Hs. rewrite EVMC_exec_with_passed by exact Hp. cbv zeta.
  rewrite Hs. unfold call_exec. simpl VMFactory_create.
  rewrite VMFace_exec_LegacyVM. reflexivity.
Qed.

(** [exec] always completes within the dispatch bound it is run with:
    the only [exec] it calls is that of the legacy VM. *)
Lemma EVMC_exec_completes G vm g _ext :
  fst (EVMC_exec G vm g _ext) <> DispatchBound.
Proof.
  unfold EVMC_exec. destruct (preconditions g _ext) eqn:Hp.
  - rewrite EVMC_exec_with_passed by exact Hp. cbv zeta.
    destruct (status _); try discriminate.
    unfold call_exec. simpl VMFactory_create.
    rewrite VMFace_exec_LegacyVM. simpl.
    destruct (fst (LegacyVM_exec g _ext)); discriminate.
  - rewrite EVMC_exec_with_aborts by exact Hp. discriminate.
Qed.

(** C1. When the assertions of [exec] pass, the status the backend
    returns is mapped as the table says: success returns the output and
    sets the gas to the gas left; revert throws [RevertInstruction] with
    the output and sets the gas to the gas left; out-of-gas and generic
    failure throw [OutOfGas]; undefined instruction, bad jump destination,
    stack overflow, stack underflow and static-mode violation throw their
    own exception; any other status throws [InternalVMError] with the raw
    status. *)
Theorem exec_status_mapping G vm g _ext :
  0 <= g ->
  preconditions g _ext = true ->
  let r := backend_execute (m_instance vm) _ext g in
  let vm' := after_execute vm g _ext in
  (0 <= gasLeft r <= int64max -> u256_of_int64 (gasLeft r) = gasLeft r)
  /\ match status r with
     | EVMC_SUCCESS =>
         EVMC_exec G vm g _ext
         = (Returned (output r), mkFrame (u256_of_int64 (gasLeft r)) vm' [])
     | EVMC_REVERT =>
         EVMC_exec G vm g _ext
         = (Thrown (RevertInstruction (output r)),
            mkFrame (u256_of_int64 (gasLeft r)) vm' [])
     | EVMC_OUT_OF_GAS | EVMC_FAILURE =>
         EVMC_exec G vm g _ext = (Thrown OutOfGas, mkFrame g vm' [])
     | EVMC_UNDEFINED_INSTRUCTION =>
         EVMC_exec G vm g _ext = (Thrown BadInstruction, mkFrame g vm' [])
     | EVMC_BAD_JUMP_DESTINATION =>
         EVMC_exec G vm g _ext = (Thrown BadJumpDestination, mkFrame g vm' [])
     | EVMC_STACK_OVERFLOW =>
         EVMC_exec G vm g _ext = (Thrown OutOfStack, mkFrame g vm' [])
     | EVMC_STACK_UNDERFLOW =>
         EVMC_exec G vm g _ext = (Thrown StackUnderflow, mkFrame g vm' [])
     | EVMC_STATIC_MODE_VIOLATION =>
         EVMC_exec G vm g _ext
         = (Thrown DisallowedStateChange, mkFrame g vm' [])
     | EVMC_REJECTED =>
         fst (EVMC_exec G vm g _ext)
         = legacy_completion (fst (LegacyVM_exec g _ext))
     | EVMC_other_status code =>
         EVMC_exec G vm g _ext
         = (Thrown (InternalVMError (EVMC_other_status code)),
            mkFrame g vm' [])
     end.
Proof.
  intros H0 Hp r vm'. split.
  - intros Hg. apply u256_of_int64_id; unfold is_int64; lia.
  - assert (Hc : static_cast_int64 g = g).
    { apply static_cast_int64_id. apply preconditions_true in Hp. lia. }
    subst r vm'. destruct (status _) eqn:Hs;
      try (unfold EVMC_exec; rewrite EVMC_exec_with_passed by exact Hp;
           cbv zeta; rewrite Hc, Hs, ?mk_owning_bytes_ref_whole; reflexivity).
    unfold EVMC_exec. rewrite EVMC_exec_with_rejected; [reflexivity|exact Hp|].
    rewrite Hc. exact Hs.
Qed.

(** C2. A gas value in [0, 2^63-1] reaches the backend unchanged by the
    narrowing: when the assertions pass, the instance receives exactly
    one [execute] call, carrying that value.  A gas value above 2^63-1, a
    negative block number or timestamp, or a depth above 2^31-1 aborts
    [exec] on an assertion with the frame untouched: the instance has
    received no call and nothing else was invoked. *)
Theorem exec_gas_forwarding G vm g _ext :
  (0 <= g <= int64max -> preconditions g _ext = true ->
     static_cast_int64 g = g
     /\ calls (m_instance (this (snd (EVMC_exec G vm g _ext))))
        = calls (m_instance vm) ++ [execute_call _ext g])
  /\ (int64max < g \/ number (envInfo _ext) < 0
      \/ timestamp (envInfo _ext) < 0 \/ int32max < depth _ext ->
      EVMC_exec G vm g _ext = (AssertionFailed, mkFrame g vm [])).
Proof.
  split.
  - intros Hg Hp. pose proof (static_cast_int64_id g Hg) as Hc.
    split; [exact Hc|]. unfold EVMC_exec.
    rewrite EVMC_exec_this by exact Hp. rewrite Hc. reflexivity.
  - intros Hbad. apply EVMC_exec_with_aborts.
    destruct (preconditions g _ext) eqn:Hp; [|reflexivity].
    apply preconditions_true in Hp. lia.
Qed.

(** C3. When the backend answers [EVMC_REJECTED], [exec] creates the
    legacy VM through the factory, whatever [g_kind] is, and calls its
    [exec] once with the caller's gas and context as they came in; the
    completion and the gas it leaves are those of the call.  The events
    are that one creation and that one call, and the result does not
    depend on how deep adapters may nest. *)
Theorem exec_rejected_fallback G vm g _ext :
  0 <= g ->
  preconditions g _ext = true ->
  status (backend_execute (m_instance vm) _ext g) = EVMC_REJECTED ->
  VMFactory_create G Legacy = VM_LegacyVM
  /\ EVMC_exec G vm g _ext
     = (legacy_completion (fst (LegacyVM_exec g _ext)),
        mkFrame (snd (LegacyVM_exec g _ext)) (after_execute vm g _ext)
          [factory_create Legacy; LegacyVM_exec_call g _ext])
  /\ forall n,
       EVMC_exec_with (VMFace_exec n G) G _ext (mkFrame g vm [])
       = EVMC_exec G vm g _ext.
Proof.
  intros H0 Hp Hs.
  assert (Hc : static_cast_int64 g = g).
  { apply static_cast_int64_id. apply preconditions_true in Hp. lia. }
  split; [reflexivity|]. unfold EVMC_exec.
  rewrite <- Hc in Hs. split.
  - rewrite EVMC_exec_with_rejected by assumption. rewrite Hc. reflexivity.
  - intros n. rewrite !EVMC_exec_with_rejected by assumption. reflexivity.
Qed.

(** C9, as amended.  Unless the backend rejects the call, [exec] leaves
    the caller's gas variable as it was whenever it throws a failure or
    an internal error (or aborts on an assertion); it is written, with
    the gas left, only when [exec] returns or throws [RevertInstruction].
    When the backend rejects the call, [exec] itself writes nothing: the
    gas variable goes by reference to the [exec] of the legacy VM, and
    the completion and the gas are what that call leaves, a failure with
    a changed gas included. *)
Theorem exec_gas_written_only_on_success_or_revert G vm g _ext :
  let r := backend_execute (m_instance vm) _ext (static_cast_int64 g) in
  let res := EVMC_exec G vm g _ext in
  (status r <> EVMC_REJECTED ->
   match fst res with
   | Returned _ | Thrown (RevertInstruction _) =>
       (status r = EVMC_SUCCESS \/ status r = EVMC_REVERT)
       /\ io_gas (snd res) = u256_of_int64 (gasLeft r)
   | _ => io_gas (snd res) = g
   end)
  /\ (preconditions g _ext = true -> status r = EVMC_REJECTED ->
      fst res = legacy_completion (fst (LegacyVM_exec g _ext))
      /\ io_gas (snd res) = snd (LegacyVM_exec g _ext))
  /\ (preconditions g _ext = false ->
      res = (AssertionFailed, mkFrame g vm [])).
Proof.
  intros r res. subst res. unfold EVMC_exec. split; [|split].
  - intros Hs. destruct (preconditions g _ext) eqn:Hp.
    + rewrite EVMC_exec_with_passed by exact Hp. cbv zeta. fold r.
      destruct (status r); simpl; auto. contradiction.
    + rewrite EVMC_exec_with_aborts by exact Hp. reflexivity.
  - intros Hp Hs. rewrite EVMC_exec_with_rejected by assumption. auto.
  - intros Hp. now apply EVMC_exec_with_aborts.
Qed.

(** C10. [exec] also asserts that the block gas limit of the context is
    at most 2^63-1: a context above it aborts [exec] on an assertion with
    the frame untouched, no call made, as the other assertions do. *)
Theorem exec_asserts_gasLimit G vm g _ext :
  int64max < gasLimit (envInfo _ext) ->
  EVMC_exec G vm g _ext = (AssertionFailed, mkFrame g vm []).
Proof.
  intros Hbad. apply EVMC_exec_with_aborts.
  destruct (preconditions g _ext) eqn:Hp; [|reflexivity].
  apply preconditions_true in Hp. lia.
Qed.

(** ** Facts about options, registry and loader *)

(** The [set_option] call an option pair becomes. *)
Definition option_call (pair : string * string) : Call :=
  set_option (fst pair) (snd pair).

Lemma EVM_ctor_calls G i :
  calls (EVM_ctor G i) = calls i ++ map option_call (s_evmcOptions G).
Proof.
  unfold EVM_ctor. generalize dependent i.
  induction (s_evmcOptions G) as [|pair rest IH]; intros i; simpl.
  - now rewrite app_nil_r.
  - rewrite IH. simpl. now rewrite <- app_assoc.
Qed.

Lemma EVM_ctor_made_by G i : made_by (EVM_ctor G i) = made_by i.
Proof.
  unfold EVM_ctor. generalize dependent i.
  induction (s_evmcOptions G) as [|pair rest IH]; intros i; simpl;
    [reflexivity|]. now rewrite IH.
Qed.

Lemma EVMC_ctor_calls G f :
  calls (m_instance (EVMC_ctor G (new_instance f)))
  = map option_call (s_evmcOptions G) ++ [set_tracer].
Proof. unfold EVMC_ctor. simpl. now rewrite EVM_ctor_calls. Qed.

(** Every adapter of the factory wraps an instance of a built-in create
    function, configured by the constructors. *)
Lemma VMFactory_create_EVMC G k vm :
  VMFactory_create G k = VM_EVMC vm ->
  exists f, vm = EVMC_ctor G (new_instance f)
            /\ (f = evmc_create_interpreter \/ f = evmjit_create
                \/ f = evmc_create_hera).
Proof.
  destruct k; simpl; try discriminate.
  - intros [= <-]. eauto.
  - destruct ETH_EVMJIT; [|discriminate]. intros [= <-]. eauto 6.
  - destruct ETH_HERA; [|discriminate]. intros [= <-]. eauto 6.
Qed.

(** The pair a well-formed option string stands for. *)
Definition split_option (s : string) : option (string * string) :=
  match String.index 0 "=" s with
  | None => None
  | Some pos =>
      Some (String.substring 0 pos s,
            String.substring (pos + 1) (String.length s - (pos + 1)) s)
  end.

Lemma parseEvmcOptions_appends _opts : forall G pairs,
  mapM split_option _opts = Some pairs ->
  parseEvmcOptions _opts G
  = (Returned tt,
     mkGlobals (g_kind G) (g_vmMap G) (s_evmcOptions G ++ pairs)).
Proof.
  induction _opts as [|s rest IH]; intros G pairs Hm.
  - injection Hm as <-. simpl. rewrite app_nil_r. now destruct G.
  - cbn [mapM] in Hm.
    destruct (split_option s) as [pair|] eqn:Hs; [|discriminate].
    destruct (mapM split_option rest) as [ps|] eqn:Hr; [|discriminate].
    injection Hm as <-. unfold split_option in Hs. cbn [parseEvmcOptions].
    destruct (String.index 0 "=" s) as [pos|]; [|discriminate].
    injection Hs as <-. rewrite (IH _ ps eq_refl). simpl.
    now rewrite <- app_assoc.
Qed.

(** C6. An instance wrapped by the factory has received, when the
    constructors are done, one [set_option] call per pair of
    [s_evmcOptions], in the order of the list, and then [set_tracer];
    [exec] only appends to these calls, an [execute] call or nothing.
    After parsing ["x=1"] and ["y=2"] the list is [("x","1"); ("y","2")]
    and an interpreter instance has received exactly those two calls, in
    that order, before the tracer. *)
Theorem options_applied_in_order G k vm :
  VMFactory_create G k = VM_EVMC vm ->
  calls (m_instance vm) = map option_call (s_evmcOptions G) ++ [set_tracer]
  /\ (forall g _ext,
        let after := calls (m_instance (this (snd (EVMC_exec G vm g _ext)))) in
        after = map option_call (s_evmcOptions G) ++ [set_tracer]
        \/ after = map option_call (s_evmcOptions G) ++ [set_tracer]
                   ++ [execute_call _ext (static_cast_int64 g)])
  /\ (forall G0,
        s_evmcOptions G0 = [] ->
        exists G1,
          parseEvmcOptions ["x=1"; "y=2"]%string G0 = (Returned tt, G1)
          /\ s_evmcOptions G1 = [("x", "1"); ("y", "2")]%string
          /\ calls (m_instance (EVMC_ctor G1 (new_instance evmc_create_interpreter)))
             = [set_option "x" "1"; set_option "y" "2"; set_tracer]).
Proof.
  intros Hc. destruct (VMFactory_create_EVMC _ _ _ Hc) as (f & -> & _).
  split; [apply EVMC_ctor_calls|]. split.
  - intros g _ext after. subst after. unfold EVMC_exec.
    destruct (preconditions g _ext) eqn:Hp.
    + right. rewrite EVMC_exec_this by exact Hp. simpl.
      rewrite EVM_ctor_calls. simpl. now rewrite <- app_assoc.
    + left. rewrite EVMC_exec_with_aborts by exact Hp. apply EVMC_ctor_calls.
  - intros G0 H0. eexists. split; [|split].
    + apply (parseEvmcOptions_appends _ G0 [("x", "1"); ("y", "2")]%string).
      reflexivity.
    + simpl. now rewrite H0.
    + rewrite EVMC_ctor_calls. simpl. now rewrite H0.
Qed.

Lemma is_create_symbol_prefix (symbol : string) :
  is_create_symbol symbol = String.prefix "evmc_create_" symbol.
Proof.
  unfold is_create_symbol. destruct symbol as [|a rest].
  - reflexivity.
  - cbn [String.index].
    destruct (String.prefix "evmc_create_" (String a rest)); [reflexivity|].
    now destruct (String.index 0 "evmc_create_" rest).
Qed.

Lemma find_create_symbol_none symbols :
  (forall s, In s symbols -> String.prefix "evmc_create_" s = false) ->
  List.find is_create_symbol symbols = None.
Proof.
  induction symbols as [|s rest IH]; intros Hno; [reflexivity|].
  simpl. rewrite is_create_symbol_prefix, (Hno s) by now left.
  apply IH. intros s' Hs'. apply Hno. now right.
Qed.

Lemma loadEvmcDlls_app pre : forall post L L',
  loadEvmcDlls pre L = (Returned tt, L') ->
  loadEvmcDlls (pre ++ post) L = loadEvmcDlls post L'.
Proof.
  induction pre as [|p pre IH]; intros post L L' Hpre; simpl in *.
  - now injection Hpre as <-.
  - destruct (loadEvmcDll p L) as [[[]| | |] L1]; try discriminate.
    now apply IH.
Qed.

Lemma substring_of_append_l (p q : string) :
  String.substring 0 (String.length p) (p +:+ q) = p.
Proof.
  induction p as [|a p IH]; simpl.
  - now destruct q.
  - now rewrite IH.
Qed.

(** The message of the loader's exception for a path. *)
Definition not_found_message (path : string) : string :=
  "loading " +:+ path +:+ " failed: EVMC create function not found".

(** C7. For a path whose library exports no symbol starting with
    ["evmc_create_"], the loader throws [std::system_error] with the
    message "loading <path> failed: EVMC create function not found" and
    leaves the registry, and the rest of its state, as they were when it
    reached the path. *)
Theorem load_without_create_symbol path L :
  (forall s, In s (library_symbols path) ->
             String.prefix "evmc_create_" s = false) ->
  loadEvmcDll path L = (Thrown (system_error (not_found_message path)), L)
  /\ loadEvmcDlls [path] L
     = (Thrown (system_error (not_found_message path)), L)
  /\ (forall pre post L0,
        loadEvmcDlls pre L0 = (Returned tt, L) ->
        loadEvmcDlls (pre ++ path :: post) L0
        = (Thrown (system_error (not_found_message path)), L))
  /\ String.substring 8 (String.length path) (not_found_message path) = path.
Proof.
  intros Hno.
  assert (H1 : loadEvmcDll path L
               = (Thrown (system_error (not_found_message path)), L)).
  { unfold loadEvmcDll. now rewrite find_create_symbol_none. }
  split; [exact H1|]. split; [simpl; now rewrite H1|]. split.
  - intros pre post L0 Hpre. rewrite (loadEvmcDlls_app _ _ _ _ Hpre).
    simpl. now rewrite H1.
  - unfold not_found_message. apply (substring_of_append_l path).
Qed.

(** Loading a path that exports a create symbol registers the symbol
    under the name its instance reports. *)
Lemma loadEvmcDll_registers path L it :
  List.find is_create_symbol (library_symbols path) = Some it ->
  exists L',
    loadEvmcDll path L = (Returned tt, L')
    /\ g_vmMap (globals L')
       = <[vm_name (dll_import path it) :=
             mkEntry DLL (Some (dll_import path it))]> (g_vmMap (globals L))
    /\ g_kind (globals L') = g_kind (globals L)
    /\ s_evmcOptions (globals L') = s_evmcOptions (globals L).
Proof.
  intros Hf. unfold loadEvmcDll. rewrite Hf. simpl. eexists.
  split; [reflexivity|]. simpl. auto.
Qed.

(** Two paths whose instances report one name: the entry of the second
    replaces that of the first. *)
Lemma load_same_name_replaces p1 p2 it1 it2 L :
  List.find is_create_symbol (library_symbols p1) = Some it1 ->
  List.find is_create_symbol (library_symbols p2) = Some it2 ->
  vm_name (dll_import p1 it1) = vm_name (dll_import p2 it2) ->
  exists L',
    loadEvmcDlls [p1; p2] L = (Returned tt, L')
    /\ g_vmMap (globals L') !! vm_name (dll_import p2 it2)
       = Some (mkEntry DLL (Some (dll_import p2 it2))).
Proof.
  intros H1 H2 Hn.
  destruct (loadEvmcDll_registers p1 L it1 H1) as (L1 & E1 & M1 & _).
  destruct (loadEvmcDll_registers p2 L1 it2 H2) as (L2 & E2 & M2 & _).
  exists L2. simpl. rewrite E1, E2. split; [reflexivity|].
  rewrite M2. apply lookup_insert_eq.
Qed.

(** The instance the loader makes to read the name and the version is
    destroyed at once: it receives no other call. *)
Lemma loadEvmcDll_released path L it :
  List.find is_create_symbol (library_symbols path) = Some it ->
  released (snd (loadEvmcDll path L))
  = released L ++ [mkInstance (dll_import path it) [destroy]].
Proof. intros Hf. unfold loadEvmcDll. rewrite Hf. reflexivity. Qed.

(** [VMFactory::create] never reads the registry: for the kind [DLL] the
    switch takes its default and makes a legacy VM, and no adapter it
    makes wraps an instance of an imported create function. *)
Lemma VMFactory_create_ignores_registry G k :
  VMFactory_create G DLL = VM_LegacyVM
  /\ (forall vm path symbol,
        VMFactory_create G k = VM_EVMC vm ->
        made_by (m_instance vm) <> dll_import path symbol).
Proof.
  split; [reflexivity|]. intros vm path symbol Hc.
  destruct (VMFactory_create_EVMC _ _ _ Hc) as (f & -> & Hf).
  unfold EVMC_ctor. simpl. rewrite EVM_ctor_made_by. simpl.
  destruct Hf as [-> | [-> | ->]]; discriminate.
Qed.

(** ** More on [parseEvmcOptions] *)

Lemma substring_whole (s : string) :
  String.substring 0 (String.length s) s = s.
Proof. induction s as [|a s IH]; simpl; [reflexivity|now rewrite IH]. Qed.

Lemma append_String (b : ascii) (s t : string) :
  String b s +:+ t = String b (s +:+ t).
Proof. reflexivity. Qed.

(** Where [find('=')] answers, the string is the part before, the
    separator and the part after, and the part before has no separator. *)
Lemma index_separator_split (s : string) : forall pos,
  String.index 0 "=" s = Some pos ->
  s = String.substring 0 pos s +:+ "="
      +:+ String.substring (pos + 1) (String.length s - (pos + 1)) s
  /\ String.index 0 "=" (String.substring 0 pos s) = None.
Proof.
  induction s as [|b s IH]; intros pos Hi; [discriminate|].
  cbn [String.index String.prefix] in Hi.
  destruct (ascii_dec "=" b) as [<-|Hb].
  - destruct s; injection Hi as <-; simpl; rewrite ?substring_whole; auto.
  - destruct (String.index 0 "=" s) as [n|] eqn:Hn; [|discriminate].
    injection Hi as <-. destruct (IH n eq_refl) as [Hs Hnone].
    cbn [String.substring Nat.add String.length Nat.sub]. split.
    + exact (f_equal (String b) Hs).
    + cbn [String.index String.prefix].
      destruct (ascii_dec "=" b); [contradiction|]. now rewrite Hnone.
Qed.

(** A name without separator, the separator and a value: [find('=')]
    answers the length of the name, and the two parts come back. *)
Lemma index_separator_join (name value : string) :
  String.index 0 "=" name = None ->
  String.index 0 "=" (name +:+ "=" +:+ value) = Some (String.length name)
  /\ String.substring 0 (String.length name) (name +:+ "=" +:+ value) = name
  /\ String.substring (String.length name + 1)
       (String.length (name +:+ "=" +:+ value) - (String.length name + 1))
       (name +:+ "=" +:+ value) = value.
Proof.
  induction name as [|b name IH]; intros Hn.
  - simpl. destruct value; simpl; rewrite ?substring_whole; auto.
  - cbn [String.index String.prefix] in Hn.
    destruct (ascii_dec "=" b) as [<-|Hb].
    + destruct name; discriminate.
    + destruct (String.index 0 "=" name) eqn:Hi; [discriminate|].
      destruct (IH eq_refl) as (H1 & H2 & H3).
      rewrite append_String.
      cbn [String.index String.prefix String.length String.substring
           Nat.add Nat.sub].
      destruct (ascii_dec "=" b); [contradiction|].
      rewrite H1, H2. auto.
Qed.

(** [parseEvmcOptions] changes nothing but the option list. *)
Lemma parseEvmcOptions_frame _opts : forall G,
  g_kind (snd (parseEvmcOptions _opts G)) = g_kind G
  /\ g_vmMap (snd (parseEvmcOptions _opts G)) = g_vmMap G.
Proof.
  induction _opts as [|s rest IH]; intros G; simpl; [auto|].
  destruct (String.index 0 "=" s); [|auto].
  destruct (IH (mkGlobals (g_kind G) (g_vmMap G)
                  (s_evmcOptions G ++
                   [(String.substring 0 n s,
                     String.substring (n + 1) (String.length s - (n + 1)) s)])))
    as [H1 H2].
  rewrite H1, H2. auto.
Qed.

(** X1. A string without ['='] stops [parseEvmcOptions]: it throws
    [invalid_syntax] with the text ["evmc "] followed by that string, the
    pairs of the strings before it stay appended, and the strings after
    it are not read. *)
Theorem parseEvmcOptions_stops_at_missing_separator pre s post G pairs :
  mapM split_option pre = Some pairs ->
  String.index 0 "=" s = None ->
  parseEvmcOptions (pre ++ s :: post) G
  = (Thrown (invalid_syntax ("evmc " +:+ s)),
     mkGlobals (g_kind G) (g_vmMap G) (s_evmcOptions G ++ pairs)).
Proof.
  revert G pairs. induction pre as [|p pre IH]; intros G pairs Hm Hs.
  - injection Hm as <-. simpl. rewrite Hs, app_nil_r. now destruct G.
  - cbn [mapM] in Hm.
    destruct (split_option p) as [pair|] eqn:Hp; [|discriminate].
    destruct (mapM split_option pre) as [ps|] eqn:Hr; [|discriminate].
    injection Hm as <-. unfold split_option in Hp.
    cbn [app parseEvmcOptions].
    destruct (String.index 0 "=" p) as [pos|]; [|discriminate].
    injection Hp as <-. rewrite (IH _ ps eq_refl Hs). simpl.
    now rewrite <- app_assoc.
Qed.

(** X2. Writing an option as name, ['='], value, with no ['='] in the
    name, and parsing it appends exactly the pair (name, value): the
    value may hold further ['='] signs and either part may be empty. *)
Theorem parseEvmcOptions_of_joined name value G :
  String.index 0 "=" name = None ->
  parseEvmcOptions [name +:+ "=" +:+ value] G
  = (Returned tt,
     mkGlobals (g_kind G) (g_vmMap G) (s_evmcOptions G ++ [(name, value)])).
Proof.
  intros Hn. destruct (index_separator_join name value Hn) as (H1 & H2 & H3).
  cbn [parseEvmcOptions]. rewrite H1, H2, H3. reflexivity.
Qed.

(** X3. When parsing one string succeeds, the pair it appends gives the
    string back: the string is the name, ['='] and the value, and the
    name holds no ['=']. *)
Theorem parseEvmcOptions_pair_rejoins s G G' :
  parseEvmcOptions [s] G = (Returned tt, G') ->
  exists name value,
    s_evmcOptions G' = s_evmcOptions G ++ [(name, value)]
    /\ s = name +:+ "=" +:+ value
    /\ String.index 0 "=" name = None.
Proof.
  cbn [parseEvmcOptions].
  destruct (String.index 0 "=" s) as [pos|] eqn:Hi; [|discriminate].
  intros [= <-]. destruct (index_separator_split s pos Hi) as [Hs Hn].
  eexists _, _. split; [reflexivity|]. split; assumption.
Qed.

(** X4. [parseEvmcOptions] only appends: however it ends, the kind and
    the registry are as before, the old option list is a prefix of the
    new one, at most one pair per string was added, and exactly one per
    string when it returns. *)
Theorem parseEvmcOptions_appends_only _opts G :
  let res := parseEvmcOptions _opts G in
  g_kind (snd res) = g_kind G
  /\ g_vmMap (snd res) = g_vmMap G
  /\ exists added,
       s_evmcOptions (snd res) = s_evmcOptions G ++ added
       /\ (length added <= length _opts)%nat
       /\ (fst res = Returned tt -> length added = length _opts).
Proof.
  cbv zeta. destruct (parseEvmcOptions_frame _opts G) as [Hk Hm].
  split; [exact Hk|]. split; [exact Hm|]. clear Hk Hm.
  revert G. induction _opts as [|s rest IH]; intros G.
  - exists []. simpl. rewrite app_nil_r. auto.
  - cbn [parseEvmcOptions].
    destruct (String.index 0 "=" s) as [pos|].
    + match goal with |- context [parseEvmcOptions rest ?G1] =>
        destruct (IH G1) as (added & Ha & Hl & Hr) end.
      eexists (_ :: added). rewrite Ha. simpl. rewrite <- app_assoc.
      split; [reflexivity|]. split; [lia|]. intros Hret. now rewrite Hr.
    + exists []. simpl. rewrite app_nil_r.
      split; [reflexivity|]. split; [lia|]. discriminate.
Qed.

(** X5. Parsing two batches in one call is parsing the first and then,
    if it returned, the second on the globals it left; if the first
    threw, that is the result. *)
Theorem parseEvmcOptions_app a b G :
  parseEvmcOptions (a ++ b) G
  = match parseEvmcOptions a G with
    | (Returned _, G1) => parseEvmcOptions b G1
    | other => other
    end.
Proof.
  revert G. induction a as [|s a IH]; intros G; [reflexivity|].
  cbn [app parseEvmcOptions].
  destruct (String.index 0 "=" s); [apply IH|reflexivity].
Qed.

(** ** More on the loader and the registry *)

(** The create function [loadEvmcDlls] imports from a path: that of the
    first exported symbol the [find_if] accepts. *)
Definition import_of (path : string) : option create_fn :=
  dll_import path <$> List.find is_create_symbol (library_symbols path).

(** The assignment [g_vmMap[name] = {VMKind::DLL, createFn}]. *)
Definition register (m : gmap string VMMapEntry) (f : create_fn)
  : gmap string VMMapEntry :=
  <[vm_name f := mkEntry DLL (Some f)]> m.

(** The line written for a loaded library. *)
Definition loaded_line (f : create_fn) : string :=
  "Loaded EVM " +:+ vm_name f +:+ " " +:+ vm_version f.

(** The loader's state once the functions [fns] have been imported and
    registered, in order. *)
Definition after_loads (L : LoaderState) (fns : list create_fn) : LoaderState :=
  mkLoader
    (mkGlobals (g_kind (globals L))
       (foldl register (g_vmMap (globals L)) fns)
       (s_evmcOptions (globals L)))
    (cout L ++ map loaded_line fns)
    (released L ++ map (fun f => mkInstance f [destroy]) fns).

Lemma after_loads_nil L : after_loads L [] = L.
Proof.
  unfold after_loads. simpl. rewrite !app_nil_r.
  destruct L as [[k m o] c r]. reflexivity.
Qed.

Lemma after_loads_cons L f fns :
  after_loads (after_loads L [f]) fns = after_loads L (f :: fns).
Proof. unfold after_loads. simpl. now rewrite <- !app_assoc. Qed.

Lemma loadEvmcDll_imports path L f :
  import_of path = Some f ->
  loadEvmcDll path L = (Returned tt, after_loads L [f]).
Proof.
  unfold import_of, loadEvmcDll.
  destruct (List.find is_create_symbol (library_symbols path)) as [it|];
    [|discriminate].
  intros [= <-]. reflexivity.
Qed.

Lemma loadEvmcDll_throws path L :
  import_of path = None ->
  loadEvmcDll path L = (Thrown (system_error (not_found_message path)), L).
Proof.
  unfold import_of, loadEvmcDll.
  destruct (List.find is_create_symbol (library_symbols path));
    [discriminate|reflexivity].
Qed.

Lemma loadEvmcDlls_imports paths : forall L fns,
  mapM import_of paths = Some fns ->
  loadEvmcDlls paths L = (Returned tt, after_loads L fns).
Proof.
  induction paths as [|p paths IH]; intros L fns Hm.
  - injection Hm as <-. now rewrite after_loads_nil.
  - cbn [mapM] in Hm. destruct (import_of p) as [f|] eqn:Hp; [|discriminate].
    destruct (mapM import_of paths) as [fs|] eqn:Hr; [|discriminate].
    injection Hm as <-. cbn [loadEvmcDlls].
    rewrite (loadEvmcDll_imports _ _ _ Hp), (IH _ fs eq_refl).
    now rewrite after_loads_cons.
Qed.

(** However a load ends, its state is that after importing the functions
    of some leading paths. *)
Lemma loadEvmcDlls_prefix paths : forall L,
  exists done fns,
    done `prefix_of` paths
    /\ mapM import_of done = Some fns
    /\ snd (loadEvmcDlls paths L) = after_loads L fns.
Proof.
  induction paths as [|p paths IH]; intros L.
  - exists [], []. simpl. rewrite after_loads_nil. auto using prefix_nil.
  - cbn [loadEvmcDlls]. destruct (import_of p) as [f|] eqn:Hp.
    + rewrite (loadEvmcDll_imports _ _ _ Hp).
      destruct (IH (after_loads L [f])) as (done & fns & Hpre & Hm & Hs).
      exists (p :: done), (f :: fns). split; [now apply prefix_cons|].
      split; [cbn [mapM]; now rewrite Hp, Hm|].
      now rewrite Hs, after_loads_cons.
    + rewrite (loadEvmcDll_throws _ _ Hp).
      exists [], []. simpl. rewrite after_loads_nil. auto using prefix_nil.
Qed.

Lemma register_keeps m f name :
  is_Some (m !! name) -> is_Some (register m f !! name).
Proof.
  unfold register. intros Hs.
  destruct (decide (vm_name f = name)) as [->|Hne].
  - rewrite lookup_insert_eq. eauto.
  - now rewrite lookup_insert_ne.
Qed.

Lemma foldl_register_keeps fns : forall m name,
  is_Some (m !! name) -> is_Some (foldl register m fns !! name).
Proof.
  induction fns as [|f fns IH]; intros m name Hs; simpl; [exact Hs|].
  apply IH, register_keeps, Hs.
Qed.

(** The entry of a name after registering [fns] in order: that of the
    last function reporting the name, the old entry when none does. *)
Lemma foldl_register_lookup fns : forall m name,
  foldl register m fns !! name
  = match last (filter (fun f => vm_name f = name) fns) with
    | Some f => Some (mkEntry DLL (Some f))
    | None => m !! name
    end.
Proof.
  induction fns as [|f fns IH] using rev_ind; intros m name; [reflexivity|].
  rewrite foldl_app, filter_app. simpl. unfold register at 1.
  rewrite filter_cons, filter_nil.
  destruct (decide (vm_name f = name)) as [->|Hne].
  - rewrite lookup_insert_eq, last_snoc. reflexivity.
  - rewrite lookup_insert_ne by exact Hne. rewrite app_nil_r. apply IH.
Qed.

(** X6. When every path exports a create symbol, [loadEvmcDlls] returns
    having registered the imported functions in path order, written one
    "Loaded EVM <name> <version>" line per path in that order, and made
    one instance per path that received [destroy] and nothing else; the
    default kind and the option list are untouched. *)
Theorem loadEvmcDlls_returns paths L fns :
  mapM import_of paths = Some fns ->
  loadEvmcDlls paths L = (Returned tt, after_loads L fns)
  /\ length (cout (after_loads L fns)) = (length (cout L) + length paths)%nat
  /\ Forall (fun i => calls i = [destroy])
       (drop (length (released L)) (released (after_loads L fns))).
Proof.
  intros Hm. split; [now apply loadEvmcDlls_imports|].
  assert (Hl : length fns = length paths).
  { clear L. revert fns Hm.
    induction paths as [|p paths IH]; intros fns Hm.
    - now injection Hm as <-.
    - cbn [mapM] in Hm. destruct (import_of p); [|discriminate].
      destruct (mapM import_of paths) as [fs|]; [|discriminate].
      injection Hm as <-. simpl. now rewrite (IH fs eq_refl). }
  unfold after_loads. simpl. split.
  - rewrite length_app, length_map. lia.
  - rewrite drop_app_length. apply Forall_forall. intros i Hi.
    apply list_elem_of_In, in_map_iff in Hi. destruct Hi as (f & <- & _).
    reflexivity.
Qed.

(** X7. After a load that returns, the entry of a name is that of the
    last path, in order, whose instance reports the name, with kind
    [DLL] and its create function; a name no loaded instance reports
    keeps the entry it had. *)
Theorem loadEvmcDlls_last_registration_wins paths L fns name :
  mapM import_of paths = Some fns ->
  g_vmMap (globals (snd (loadEvmcDlls paths L))) !! name
  = match last (filter (fun f => vm_name f = name) fns) with
    | Some f => Some (mkEntry DLL (Some f))
    | None => g_vmMap (globals L) !! name
    end.
Proof.
  intros Hm. rewrite (loadEvmcDlls_imports _ _ _ Hm). simpl.
  apply foldl_register_lookup.
Qed.

(** X8. However [loadEvmcDlls] ends, it leaves the default kind and the
    option list as they were, and every name that was registered is
    still registered: entries are added or overwritten, never removed. *)
Theorem loadEvmcDlls_frame paths L :
  let L' := snd (loadEvmcDlls paths L) in
  g_kind (globals L') = g_kind (globals L)
  /\ s_evmcOptions (globals L') = s_evmcOptions (globals L)
  /\ forall name,
       is_Some (g_vmMap (globals L) !! name) ->
       is_Some (g_vmMap (globals L') !! name).
Proof.
  cbv zeta. destruct (loadEvmcDlls_prefix paths L) as (done & fns & _ & _ & ->).
  simpl. split; [reflexivity|]. split; [reflexivity|].
  intros name. apply foldl_register_keeps.
Qed.

(** X9. Of several exported symbols the first that starts with
    ["evmc_create_"] is the one imported, called and registered: symbols
    before it that do not start so are skipped, symbols after it are not
    looked at. *)
Theorem loadEvmcDll_takes_first_create_symbol path L before it after :
  library_symbols path = before ++ it :: after ->
  (forall s, In s before -> String.prefix "evmc_create_" s = false) ->
  String.prefix "evmc_create_" it = true ->
  loadEvmcDll path L = (Returned tt, after_loads L [dll_import path it]).
Proof.
  intros Hsym Hbefore Hit. apply loadEvmcDll_imports.
  unfold import_of. rewrite Hsym. clear Hsym.
  induction before as [|s before IH]; simpl.
  - now rewrite is_create_symbol_prefix, Hit.
  - rewrite is_create_symbol_prefix, (Hbefore s) by now left.
    apply IH. intros s' Hs'. apply Hbefore. now right.
Qed.

Lemma initial_vmMap_lookup name e :
  initial_vmMap !! name = Some e ->
  createFn e = None /\ kind e <> DLL
  /\ (name = "interpreter" \/ name = "legacy"
      \/ (ETH_EVMJIT = true /\ name = "jit")
      \/ (ETH_HERA = true /\ name = "hera"))%string.
Proof.
  unfold initial_vmMap. intros H.
  destruct ETH_HERA, ETH_EVMJIT;
    repeat (apply lookup_insert_Some in H; destruct H as [[<- <-]|[_ H]];
            [simpl; split; [reflexivity|]; split; [discriminate|]; tauto|]);
    rewrite lookup_empty in H; discriminate.
Qed.

Lemma initial_vmMap_names name :
  is_Some (initial_vmMap !! name) <->
  (name = "interpreter" \/ name = "legacy"
   \/ (ETH_EVMJIT = true /\ name = "jit")
   \/ (ETH_HERA = true /\ name = "hera"))%string.
Proof.
  split.
  - intros [e He]. now apply initial_vmMap_lookup in He.
  - unfold initial_vmMap.
    intros [->|[->|[[Hj ->]|[Hh ->]]]]; rewrite ?Hj, ?Hh;
      destruct ETH_EVMJIT, ETH_HERA; try discriminate; cbv beta iota zeta;
      repeat (rewrite lookup_insert_ne by discriminate);
      rewrite lookup_insert_eq; eauto.
Qed.

Lemma mapM_import_of_In paths : forall fns f,
  mapM import_of paths = Some fns -> In f fns ->
  exists p, In p paths /\ import_of p = Some f.
Proof.
  induction paths as [|p paths IH]; intros fns f Hm Hf.
  - injection Hm as <-. destruct Hf.
  - cbn [mapM] in Hm. destruct (import_of p) as [f0|] eqn:Hp; [|discriminate].
    destruct (mapM import_of paths) as [fs|] eqn:Hr; [|discriminate].
    injection Hm as <-. destruct Hf as [<-|Hf].
    + exists p. split; [now left|exact Hp].
    + destruct (IH fs f eq_refl Hf) as (q & Hq & Hi).
      exists q. split; [now right|exact Hi].
Qed.

(** X10. Starting from the built-in registry, however a load ends every
    entry is either a built-in one, with a kind other than [DLL] and no
    create function, or has the kind [DLL] and the create function of a
    symbol that one of the given paths exports, that starts with
    ["evmc_create_"], and whose instance reports the very name the entry
    is registered under. *)
Theorem registry_entries_after_loading paths name e :
  g_vmMap (globals (snd (loadEvmcDlls paths (mkLoader initial_globals [] []))))
    !! name = Some e ->
  (createFn e = None /\ kind e <> DLL)
  \/ (kind e = DLL
      /\ exists path symbol,
           In path paths
           /\ createFn e = Some (dll_import path symbol)
           /\ In symbol (library_symbols path)
           /\ String.prefix "evmc_create_" symbol = true
           /\ vm_name (dll_import path symbol) = name).
Proof.
  destruct (loadEvmcDlls_prefix paths (mkLoader initial_globals [] []))
    as (done & fns & Hpre & Hm & ->).
  simpl. rewrite foldl_register_lookup.
  destruct (last (filter (fun f => vm_name f = name) fns)) as [f|] eqn:Hl.
  - intros [= <-]. right. split; [reflexivity|].
    apply last_Some_elem_of, list_elem_of_filter in Hl. destruct Hl as [Hn Hf].
    apply list_elem_of_In in Hf.
    destruct (mapM_import_of_In _ _ _ Hm Hf) as (p & Hp & Hi).
    unfold import_of in Hi.
    destruct (List.find is_create_symbol (library_symbols p)) as [it|] eqn:Hfind;
      [|discriminate].
    injection Hi as <-. apply find_some in Hfind. destruct Hfind as [Hin Hc].
    exists p, it. rewrite is_create_symbol_prefix in Hc.
    destruct Hpre as [rest ->]. rewrite in_app_iff. auto 8.
  - intros H. left. apply initial_vmMap_lookup in H. tauto.
Qed.

(** ** [validate] *)

(** The errors of Boost.Program_options that [validate] can raise. *)
Inductive validation_kind :=
| multiple_values_not_allowed
| at_least_one_value_required
| invalid_option_value.

Inductive po_exception :=
| multiple_occurrences
| validation_error (k : validation_kind).

(** [po::validators::check_first_occurrence]: an option value that was
    assigned before is an error. *)
Definition check_first_occurrence {A} (v : option A) : unit + po_exception :=
  match v with
  | None => inl tt
  | Some _ => inr multiple_occurrences
  end.

(** [po::validators::get_single_string]: the one string of the values. *)
Definition get_single_string (values : list string) : string + po_exception :=
  match values with
  | [] => inr (validation_error at_least_one_value_required)
  | [s] => inl s
  | _ => inr (validation_error multiple_values_not_allowed)
  end.

(** [validate] for [VMKind]: it checks, and assigns nothing to [v]. *)
Definition validate (v : option VMKind) (values : list string) (G : Globals)
  : unit + po_exception :=
  match check_first_occurrence v with
  | inr e => inr e
  | inl _ =>
      match get_single_string values with
      | inr e => inr e
      | inl s =>
          match g_vmMap G !! s with
          | None => inr (validation_error invalid_option_value)
          | Some _ => inl tt
          end
      end
  end.

Lemma validate_accepts v values G :
  validate v values G = inl tt <->
  v = None /\ exists s, values = [s] /\ is_Some (g_vmMap G !! s).
Proof.
  unfold validate, check_first_occurrence, get_single_string. split.
  - destruct v; [discriminate|]. destruct values as [|s [|]]; try discriminate.
    destruct (g_vmMap G !! s) eqn:Hs; [|discriminate]. eauto.
  - intros (-> & s & -> & [e He]). now rewrite He.
Qed.

(** X11. With the registry as built, [validate] accepts a first, single
    value exactly when it is ["interpreter"] or ["legacy"], or ["jit"] in
    a build with ETH_EVMJIT, or ["hera"] in a build with ETH_HERA; the
    comparison is exact, so ["Legacy"] or [""] is refused with
    [invalid_option_value]. *)
Theorem validate_initial_names (s : string) :
  (validate None [s] initial_globals = inl tt <->
   (s = "interpreter" \/ s = "legacy"
    \/ (ETH_EVMJIT = true /\ s = "jit")
    \/ (ETH_HERA = true /\ s = "hera"))%string)
  /\ validate None ["Legacy"%string] initial_globals
     = inr (validation_error invalid_option_value)
  /\ validate None [""%string] initial_globals
     = inr (validation_error invalid_option_value).
Proof.
  split; [|split].
  - rewrite validate_accepts. simpl. rewrite <- initial_vmMap_names.
    split; [intros (_ & s' & [= <-] & Hs); exact Hs|eauto].
  - unfold validate. simpl.
    destruct (initial_vmMap !! "Legacy"%string) as [e|] eqn:He; [|reflexivity].
    apply initial_vmMap_lookup in He.
    destruct He as (_ & _ & [H|[H|[[_ H]|[_ H]]]]); discriminate.
  - unfold validate. simpl.
    destruct (initial_vmMap !! ""%string) as [e|] eqn:He; [|reflexivity].
    apply initial_vmMap_lookup in He.
    destruct He as (_ & _ & [H|[H|[[_ H]|[_ H]]]]); discriminate.
Qed.

(** X12. After a load that returns, [validate] accepts the name every
    loaded instance reports, and every value it accepted before. *)
Theorem validate_after_loading paths L fns s :
  mapM import_of paths = Some fns ->
  (exists f, In f fns /\ vm_name f = s)
  \/ validate None [s] (globals L) = inl tt ->
  validate None [s] (globals (snd (loadEvmcDlls paths L))) = inl tt.
Proof.
  intros Hm Hs. apply validate_accepts. split; [reflexivity|].
  exists s. split; [reflexivity|].
  rewrite (loadEvmcDlls_imports _ _ _ Hm). simpl.
  rewrite foldl_register_lookup.
  destruct (last (filter (fun f => vm_name f = s) fns)) as [f0|] eqn:Hl;
    [eauto|].
  destruct Hs as [(f & Hf & Hn)|Hv].
  - apply last_None in Hl.
    assert (Hin : f ∈ filter (fun f => vm_name f = s) fns)
      by (apply list_elem_of_filter; split; [exact Hn|now apply list_elem_of_In]).
    rewrite Hl in Hin. now apply elem_of_nil in Hin.
  - apply validate_accepts in Hv. destruct Hv as (_ & s' & [= <-] & Hs'). exact Hs'.
Qed.

(** ** More on the adapter *)

(** [exec] called on one adapter for each input in turn, each call with a
    gas variable of its own: the adapter as the calls leave it. *)
Fixpoint exec_each (G : Globals) (vm : EVMC) (inputs : list (Z * ExtVMFace))
  : EVMC :=
  match inputs with
  | [] => vm
  | (g, _ext) :: rest =>
      exec_each G (this (snd (EVMC_exec G vm g _ext))) rest
  end.

Definition is_rejected (st : evmc_status_code) : bool :=
  match st with
  | EVMC_REJECTED => true
  | _ => false
  end.

(** X13. Over any sequence of [exec] calls on one adapter the wrapped
    instance is never replaced and receives one [execute] call for each
    [exec] whose assertions pass, in order, and no other call: options
    and tracer are set by the constructors only, and [exec] never
    destroys the instance. *)
Theorem exec_each_calls G (inputs : list (Z * ExtVMFace)) : forall vm,
  made_by (m_instance (exec_each G vm inputs)) = made_by (m_instance vm)
  /\ calls (m_instance (exec_each G vm inputs))
     = calls (m_instance vm)
       ++ map (fun i => execute_call (snd i) (static_cast_int64 (fst i)))
            (List.filter (fun i => preconditions (fst i) (snd i)) inputs).
Proof.
  induction inputs as [|[g _ext] rest IH]; intros vm.
  - simpl. now rewrite app_nil_r.
  - cbn [exec_each List.filter fst snd]. unfold EVMC_exec.
    destruct (IH (this (snd (EVMC_exec_with (VMFace_exec 0 G) G _ext
                               (mkFrame g vm []))))) as [Hm Hc].
    rewrite Hm, Hc. clear Hm Hc IH.
    destruct (preconditions g _ext) eqn:Hp.
    + rewrite EVMC_exec_this by exact Hp. simpl.
      now rewrite <- app_assoc.
    + rewrite EVMC_exec_with_aborts by exact Hp. auto.
Qed.

(** X14. Once its assertions pass, [exec] leaves the adapter pointing at
    the code of this context and at the instruction names of the revision
    selected from this context's schedule, whatever the backend answers,
    rejection and failures included; when an assertion fails the adapter
    is as it was. *)
Theorem exec_points_adapter_at_context G vm g _ext :
  let vm' := this (snd (EVMC_exec G vm g _ext)) in
  if preconditions g _ext
  then m_code vm' = code _ext
       /\ m_instructionNames vm' = Some (toRevision (evmSchedule _ext))
  else vm' = vm.
Proof.
  cbv zeta. unfold EVMC_exec. destruct (preconditions g _ext) eqn:Hp.
  - rewrite EVMC_exec_this by exact Hp. auto.
  - now rewrite EVMC_exec_with_aborts by exact Hp.
Qed.

(** X15. [exec] makes another VM and calls it only when its assertions
    passed and the backend answered [EVMC_REJECTED]: then the events are
    the creation of the legacy VM and one call of its [exec] with the gas
    as it came in; in every other case there is no event. *)
Theorem exec_events G vm g _ext :
  events (snd (EVMC_exec G vm g _ext))
  = if preconditions g _ext
       && is_rejected
            (status (backend_execute (m_instance vm) _ext
                       (static_cast_int64 g)))
    then [factory_create Legacy; LegacyVM_exec_call g _ext]
    else [].
Proof.
  unfold EVMC_exec. destruct (preconditions g _ext) eqn:Hp.
  - rewrite EVMC_exec_with_passed by exact Hp. cbv zeta.
    destruct (status _); try reflexivity.
    unfold call_exec. simpl VMFactory_create.
    rewrite VMFace_exec_LegacyVM. reflexivity.
  - now rewrite EVMC_exec_with_aborts by exact Hp.
Qed.

(** X16. [exec] does not look at the sign of the gas left.  When the
    backend answers success or revert with a negative gas left, the gas
    variable ends at 2^256 plus that value, and an [exec] given this gas
    fails its own assertion on the gas, whatever the adapter and the
    context. *)
Theorem exec_negative_gasLeft G vm g _ext :
  let r := backend_execute (m_instance vm) _ext (static_cast_int64 g) in
  preconditions g _ext = true ->
  status r = EVMC_SUCCESS \/ status r = EVMC_REVERT ->
  - 2 ^ 63 <= gasLeft r < 0 ->
  let g' := io_gas (snd (EVMC_exec G vm g _ext)) in
  g' = 2 ^ 256 + gasLeft r
  /\ forall vm2 _ext2,
       EVMC_exec G vm2 g' _ext2 = (AssertionFailed, mkFrame g' vm2 []).
Proof.
  intros r Hp Hs Hneg g'.
  assert (Hg : g' = 2 ^ 256 + gasLeft r).
  { subst g'. unfold EVMC_exec. rewrite EVMC_exec_with_passed by exact Hp.
    cbv zeta. fold r.
    assert (Hw : u256_of_int64 (gasLeft r) = 2 ^ 256 + gasLeft r).
    { unfold u256_of_int64.
      rewrite <- (Z.mod_add (gasLeft r) 1 (2 ^ 256)) by lia.
      rewrite Z.mul_1_l, Z.mod_small; lia. }
    destruct Hs as [-> | ->]; simpl; exact Hw. }
  split; [exact Hg|]. intros vm2 _ext2. apply EVMC_exec_with_aborts.
  destruct (preconditions g' _ext2) eqn:Hp2; [|reflexivity].
  apply preconditions_true in Hp2. unfold int64max in Hp2. lia.
Qed.

(** ** The description of the [--vm] option *)

(** The keys of a [std::map<std::string, _>] in iteration order: sorted
    by [operator<] of [std::string], the byte-wise lexicographic order. *)
Definition keys_in_order (m : gmap string VMMapEntry) : list string :=
  merge_sort (fun a b => Is_true (String.leb a b)) (map fst (map_to_list m)).

(** The keys in order are the registered names, each once, ascending. *)
Lemma keys_in_order_spec (m : gmap string VMMapEntry) :
  (forall s, In s (keys_in_order m) <-> is_Some (m !! s))
  /\ NoDup (keys_in_order m)
  /\ Sorted (fun a b => Is_true (String.leb a b)) (keys_in_order m).
Proof.
  unfold keys_in_order.
  assert (Hfmap : map fst (map_to_list m) = (map_to_list m).*1)
    by (induction (map_to_list m) as [|x l IH]; [reflexivity|];
        rewrite fmap_cons; cbn [map]; f_equal; exact IH).
  split; [|split].
  - intros s. rewrite <- list_elem_of_In, merge_sort_Permutation.
    rewrite list_elem_of_In, in_map_iff. split.
    + intros ([k e] & <- & Hin). apply list_elem_of_In in Hin.
      apply elem_of_map_to_list in Hin. simpl. eauto.
    + intros [e He]. exists (s, e). split; [reflexivity|].
      apply list_elem_of_In. now apply elem_of_map_to_list.
  - rewrite merge_sort_Permutation, Hfmap. apply NoDup_fst_map_to_list.
  - apply Sorted_merge_sort. intros a b.
    destruct (String.leb_total a b) as [H|H]; rewrite H; [left|right]; exact I.
Qed.

(** The loop of the lambda in [vmProgramOptions]: a separator goes in
    front of a name when the text so far is not empty. *)
Definition join_names (keys : list string) : string :=
  foldl (fun names key =>
           (if String.eqb names "" then names else names +:+ ", ") +:+ key)
    ""%string keys.

(** The text [description] is initialised with, from the registry as it
    is at the first call of [vmProgramOptions]. *)
Definition description (G : Globals) : string :=
  "Select VM implementation. Available options are: "
  +:+ join_names (keys_in_order (g_vmMap G)) +:+ ".".

Lemma append_assoc (a b c : string) : (a +:+ b) +:+ c = a +:+ (b +:+ c).
Proof. induction a as [|x a IH]; [reflexivity|]. rewrite !append_String. now rewrite IH. Qed.

Lemma append_nil_r (a : string) : a +:+ "" = a.
Proof. induction a as [|x a IH]; [reflexivity|]. rewrite append_String. now rewrite IH. Qed.

(** The names after the first, each with its separator in front. *)
Definition separated (keys : list string) : string :=
  fold_right (fun key rest => ", " +:+ key +:+ rest) ""%string keys.

Lemma join_from_nonempty keys : forall x names,
  foldl (fun names key =>
           (if String.eqb names "" then names else names +:+ ", ") +:+ key)
    (String x names) keys
  = String x names +:+ separated keys.
Proof.
  induction keys as [|k keys IH]; intros x names; simpl.
  - now rewrite append_nil_r.
  - rewrite !append_String. rewrite IH. rewrite <- !append_String.
    now rewrite !append_assoc.
Qed.

(** X17. The names are joined with [", "] between them and nothing
    after the last; an empty name at the front, where the order puts it,
    adds nothing, not even a separator; with no name the text is empty. *)
Theorem join_names_separates (x : ascii) (first : string) (keys : list string) :
  join_names (String x first :: keys) = String x first +:+ separated keys
  /\ join_names (""%string :: String x first :: keys)
     = join_names (String x first :: keys)
  /\ join_names [] = ""%string.
Proof.
  split; [exact (join_from_nonempty keys x first)|].
  split; reflexivity.
Qed.

(** X18. With the registry as built, the description lists the built-in
    names in alphabetical order, whatever order they were written in:
    hera (with ETH_HERA), interpreter, jit (with ETH_EVMJIT), legacy. *)
Theorem description_initial :
  description initial_globals
  = "Select VM implementation. Available options are: "
    +:+ (if ETH_HERA then "hera, " else "")
    +:+ "interpreter, "
    +:+ (if ETH_EVMJIT then "jit, " else "")
    +:+ "legacy.".
Proof.
  unfold description, initial_globals, initial_vmMap. simpl g_vmMap.
  destruct ETH_HERA, ETH_EVMJIT; vm_compute; reflexivity.
Qed.

End Adapter.

(** ** A sample configuration

    A build without the optional backends, a backend that answers every
    call with one fixed status, three gas spent and the code echoed as
    output, a legacy VM that returns the code and spends five gas, and
    three libraries on disk: two report the name ["x"], the third exports
    no create function. *)

Definition sample_schedule : EVMSchedule :=
  mkSchedule false false false false false.

Definition sample_ext : ExtVMFace :=
  mkExt (mkEnvInfo 7 1540000000 8000000) 0 1 2 [Byte.x00] sample_schedule.

Definition fixed_backend (st : evmc_status_code)
  : evmc_instance -> ExtVMFace -> Z -> Result :=
  fun _ _ext gas => mkResult st (gas - 3) (code _ext).

Definition sample_LegacyVM_exec
  : Z -> ExtVMFace -> (owning_bytes_ref + Exception) * Z :=
  fun gas _ext => (inl (code _ext), gas - 5).

Definition sample_library_symbols (path : string) : list string :=
  if String.eqb path "a.so" then ["init"; "evmc_create_first"]%string
  else if String.eqb path "b.so"
       then ["evmc_create_second"; "evmc_create_unused"]%string
  else ["main"; "create_evmc_"; "evmc_creat"]%string.

Definition sample_vm_name (f : create_fn) : string := "x".
Definition sample_vm_version (f : create_fn) : string := "0.1".

Definition sample_globals : Globals := initial_globals false false.

Definition sample_adapter : EVMC :=
  EVMC_ctor sample_globals (new_instance evmc_create_interpreter).

Definition sample_exec (st : evmc_status_code) (g : Z) (_ext : ExtVMFace)
  : Completion owning_bytes_ref * Frame :=
  EVMC_exec false false (fixed_backend st) sample_LegacyVM_exec
    sample_globals sample_adapter g _ext.

Lemma exec_status_mapping_witness :
  sample_exec EVMC_SUCCESS 21000 sample_ext
  = (Returned [Byte.x00],
     mkFrame (u256_of_int64 20997)
       (after_execute sample_adapter 21000 sample_ext) [])
  /\ u256_of_int64 20997 = 20997.
Proof.
  assert (H0 : 0 <= 21000) by lia.
  assert (Hp : preconditions 21000 sample_ext = true) by reflexivity.
  destruct (exec_status_mapping false false (fixed_backend EVMC_SUCCESS)
              sample_LegacyVM_exec sample_globals sample_adapter
              21000 sample_ext H0 Hp) as [Hg Hm].
  split; [exact Hm|]. apply Hg. simpl. unfold int64max. lia.
Defined.

Lemma exec_gas_forwarding_witness :
  calls (m_instance (this (snd (sample_exec EVMC_SUCCESS 21000 sample_ext))))
  = [set_tracer; execute_call sample_ext 21000]
  /\ sample_exec EVMC_SUCCESS (2 ^ 63) sample_ext
     = (AssertionFailed, mkFrame (2 ^ 63) sample_adapter []).
Proof.
  destruct (exec_gas_forwarding false false (fixed_backend EVMC_SUCCESS)
              sample_LegacyVM_exec sample_globals sample_adapter
              21000 sample_ext) as [Hfwd _].
  destruct (exec_gas_forwarding false false (fixed_backend EVMC_SUCCESS)
              sample_LegacyVM_exec sample_globals sample_adapter
              (2 ^ 63) sample_ext) as [_ Hbad].
  split.
  - apply Hfwd; [unfold int64max; lia | reflexivity].
  - apply Hbad. left. unfold int64max. lia.
Defined.

Lemma exec_rejected_fallback_witness :
  sample_exec EVMC_REJECTED 21000 sample_ext
  = (Returned [Byte.x00],
     mkFrame 20995 (after_execute sample_adapter 21000 sample_ext)
       [factory_create Legacy; LegacyVM_exec_call 21000 sample_ext]).
Proof.
  assert (H0 : 0 <= 21000) by lia.
  assert (Hp : preconditions 21000 sample_ext = true) by reflexivity.
  assert (Hs : status (fixed_backend EVMC_REJECTED
                         (m_instance sample_adapter) sample_ext 21000)
               = EVMC_REJECTED) by reflexivity.
  exact (proj1 (proj2 (exec_rejected_fallback false false
                         (fixed_backend EVMC_REJECTED) sample_LegacyVM_exec
                         sample_globals sample_adapter 21000 sample_ext
                         H0 Hp Hs))).
Defined.

Lemma exec_gas_written_only_on_success_or_revert_witness :
  io_gas (snd (sample_exec EVMC_STACK_UNDERFLOW 21000 sample_ext)) = 21000.
Proof.
  assert (Hs : status (fixed_backend EVMC_STACK_UNDERFLOW
                         (m_instance sample_adapter) sample_ext
                         (static_cast_int64 21000))
               <> EVMC_REJECTED) by discriminate.
  exact (proj1 (exec_gas_written_only_on_success_or_revert false false
                  (fixed_backend EVMC_STACK_UNDERFLOW) sample_LegacyVM_exec
                  sample_globals sample_adapter 21000 sample_ext) Hs).
Defined.

(** A legacy VM that runs out of gas: it throws [OutOfGas] and leaves no
    gas in the caller's variable. *)
Definition exhausted_LegacyVM_exec
  : Z -> ExtVMFace -> (owning_bytes_ref + Exception) * Z :=
  fun _ _ => (inr OutOfGas, 0).

(** With a backend that rejects the call and a legacy VM that runs out
    of gas, [exec] entered with 21000 gas ends in the failure [OutOfGas]
    with the gas variable at 0: a failure outcome with the gas not as it
    was on entry. *)
Lemma exec_fallback_failure_changes_gas :
  fst (EVMC_exec false false (fixed_backend EVMC_REJECTED)
         exhausted_LegacyVM_exec sample_globals sample_adapter 21000
         sample_ext)
  = Thrown OutOfGas
  /\ io_gas (snd (EVMC_exec false false (fixed_backend EVMC_REJECTED)
                    exhausted_LegacyVM_exec sample_globals sample_adapter
                    21000 sample_ext))
     = 0
  /\ 0 <> 21000.
Proof. split; [reflexivity|]. split; [reflexivity|discriminate]. Qed.

(** A context that meets every condition on gas, block number, timestamp
    and depth, and whose block gas limit is 2^63. *)
Definition high_gasLimit_ext : ExtVMFace :=
  mkExt (mkEnvInfo 7 1540000000 (2 ^ 63)) 0 1 2 [Byte.x00] sample_schedule.

Lemma exec_asserts_gasLimit_witness :
  sample_exec EVMC_SUCCESS 21000 high_gasLimit_ext
  = (AssertionFailed, mkFrame 21000 sample_adapter []).
Proof.
  apply (exec_asserts_gasLimit false false (fixed_backend EVMC_SUCCESS)
           sample_LegacyVM_exec sample_globals sample_adapter 21000
           high_gasLimit_ext).
  unfold int64max. simpl. lia.
Defined.

(** The globals after [--evmc x=1 --evmc y=2], and an adapter made then. *)
Definition configured_globals : Globals :=
  snd (parseEvmcOptions ["x=1"; "y=2"]%string sample_globals).

Definition configured_adapter : EVMC :=
  EVMC_ctor configured_globals (new_instance evmc_create_interpreter).

Lemma options_applied_in_order_witness :
  calls (m_instance configured_adapter)
  = [set_option "x" "1"; set_option "y" "2"; set_tracer].
Proof.
  assert (Hc : VMFactory_create false false configured_globals Interpreter
               = VM_EVMC configured_adapter) by reflexivity.
  exact (proj1 (options_applied_in_order false false
                  (fixed_backend EVMC_SUCCESS) sample_LegacyVM_exec
                  configured_globals Interpreter configured_adapter Hc)).
Defined.

(** The revert scenario: a backend that reverts with the payload AA BB
    and 20997 gas left makes [exec] throw [RevertInstruction] with
    exactly that payload and leaves 20997 in the gas variable. *)
Example revert_scenario :
  let _ext := mkExt (mkEnvInfo 7 1540000000 8000000) 0 1 2
                [Byte.xaa; Byte.xbb] sample_schedule in
  fst (sample_exec EVMC_REVERT 21000 _ext)
  = Thrown (RevertInstruction [Byte.xaa; Byte.xbb])
  /\ io_gas (snd (sample_exec EVMC_REVERT 21000 _ext)) = 20997.
Proof. split; reflexivity. Qed.

Definition sample_loader : LoaderState := mkLoader sample_globals [] [].

Lemma load_without_create_symbol_witness :
  loadEvmcDll sample_library_symbols sample_vm_name sample_vm_version
    "c.so" sample_loader
  = (Thrown (system_error
               "loading c.so failed: EVMC create function not found"),
     sample_loader).
Proof.
  apply (load_without_create_symbol sample_library_symbols sample_vm_name
           sample_vm_version "c.so" sample_loader).
  intros s [<- | [<- | [<- | []]]]; reflexivity.
Defined.

(** At the failing input of C8: after loading [a.so] and then [b.so],
    which both report the name ["x"], the registry maps ["x"] to the kind
    [DLL] with the create function of [b.so]; [VMFactory::create] for
    that kind returns a [LegacyVM], and calls no create function. *)
Theorem create_after_reload_is_legacy :
  exists L,
    loadEvmcDlls sample_library_symbols sample_vm_name sample_vm_version
      ["a.so"; "b.so"]%string sample_loader = (Returned tt, L)
    /\ g_vmMap (globals L) !! "x"
       = Some (mkEntry DLL (Some (dll_import "b.so" "evmc_create_second")))
    /\ VMFactory_create false false (globals L) DLL = VM_LegacyVM
    /\ VMFactory_create_default false false
         (VMFactory_setKind DLL (globals L)) = VM_LegacyVM.
Proof.
  destruct (load_same_name_replaces sample_library_symbols sample_vm_name
              sample_vm_version "a.so" "b.so" "evmc_create_first"
              "evmc_create_second" sample_loader
              eq_refl eq_refl eq_refl) as (L & HL & Hx).
  exists L. split; [exact HL|]. split; [exact Hx|]. split; reflexivity.
Qed.


(** ** The sample configuration, continued *)

Lemma parseEvmcOptions_stops_at_missing_separator_witness :
  parseEvmcOptions ["x=1"; "oops"; "y=2"]%string sample_globals
  = (Thrown (invalid_syntax "evmc oops"),
     mkGlobals (g_kind sample_globals) (g_vmMap sample_globals)
       (s_evmcOptions sample_globals ++ [("x", "1")]%string)).
Proof.
  exact (parseEvmcOptions_stops_at_missing_separator
           ["x=1"]%string "oops" ["y=2"]%string sample_globals
           [("x", "1")]%string eq_refl eq_refl).
Defined.

Lemma parseEvmcOptions_of_joined_witness :
  parseEvmcOptions ["path=a=b"]%string sample_globals
  = (Returned tt,
     mkGlobals (g_kind sample_globals) (g_vmMap sample_globals)
       (s_evmcOptions sample_globals ++ [("path", "a=b")]%string)).
Proof.
  exact (parseEvmcOptions_of_joined "path" "a=b" sample_globals eq_refl).
Defined.

Lemma parseEvmcOptions_pair_rejoins_witness :
  exists name value,
    s_evmcOptions configured_globals
    = s_evmcOptions (snd (parseEvmcOptions ["x=1"]%string sample_globals))
      ++ [(name, value)]
    /\ "y=2"%string = name +:+ "=" +:+ value
    /\ String.index 0 "=" name = None.
Proof.
  exact (parseEvmcOptions_pair_rejoins "y=2"
           (snd (parseEvmcOptions ["x=1"]%string sample_globals))
           configured_globals eq_refl).
Defined.

Definition sample_loadEvmcDlls (paths : list string)
  : Completion unit * LoaderState :=
  loadEvmcDlls sample_library_symbols sample_vm_name sample_vm_version
    paths sample_loader.

Definition sample_fns : list create_fn :=
  [dll_import "a.so" "evmc_create_first";
   dll_import "b.so" "evmc_create_second"].

Lemma loadEvmcDlls_returns_witness :
  sample_loadEvmcDlls ["a.so"; "b.so"]%string
  = (Returned tt,
     after_loads sample_vm_name sample_vm_version sample_loader sample_fns)
  /\ cout (snd (sample_loadEvmcDlls ["a.so"; "b.so"]%string))
     = ["Loaded EVM x 0.1"; "Loaded EVM x 0.1"]%string.
Proof.
  destruct (loadEvmcDlls_returns sample_library_symbols sample_vm_name
              sample_vm_version ["a.so"; "b.so"]%string sample_loader
              sample_fns eq_refl) as (H & _ & _).
  split; [exact H|]. unfold sample_loadEvmcDlls. rewrite H. reflexivity.
Defined.

Lemma loadEvmcDlls_last_registration_wins_witness :
  g_vmMap (globals (snd (sample_loadEvmcDlls ["a.so"; "b.so"]%string))) !! "x"
  = Some (mkEntry DLL (Some (dll_import "b.so" "evmc_create_second"))).
Proof.
  exact (loadEvmcDlls_last_registration_wins sample_library_symbols
           sample_vm_name sample_vm_version ["a.so"; "b.so"]%string
           sample_loader sample_fns "x" eq_refl).
Defined.

Lemma loadEvmcDll_takes_first_create_symbol_witness :
  loadEvmcDll sample_library_symbols sample_vm_name sample_vm_version
    "b.so" sample_loader
  = (Returned tt,
     after_loads sample_vm_name sample_vm_version sample_loader
       [dll_import "b.so" "evmc_create_second"]).
Proof.
  apply (loadEvmcDll_takes_first_create_symbol sample_library_symbols
           sample_vm_name sample_vm_version "b.so" sample_loader
           [] "evmc_create_second" ["evmc_create_unused"]%string).
  - reflexivity.
  - intros s [].
  - reflexivity.
Defined.

Lemma registry_entries_after_loading_witness :
  (createFn (mkEntry DLL (Some (dll_import "a.so" "evmc_create_first"))) = None
   /\ kind (mkEntry DLL (Some (dll_import "a.so" "evmc_create_first"))) <> DLL)
  \/ (kind (mkEntry DLL (Some (dll_import "a.so" "evmc_create_first"))) = DLL
      /\ exists path symbol,
           In path ["a.so"; "c.so"]%string
           /\ createFn (mkEntry DLL (Some (dll_import "a.so" "evmc_create_first")))
              = Some (dll_import path symbol)
           /\ In symbol (sample_library_symbols path)
           /\ String.prefix "evmc_create_" symbol = true
           /\ sample_vm_name (dll_import path symbol) = "x"%string).
Proof.
  apply (registry_entries_after_loading false false sample_library_symbols
           sample_vm_name sample_vm_version ["a.so"; "c.so"]%string "x"
           (mkEntry DLL (Some (dll_import "a.so" "evmc_create_first")))).
  vm_compute. reflexivity.
Defined.

Lemma validate_after_loading_witness :
  validate None ["x"%string]
    (globals (snd (sample_loadEvmcDlls ["a.so"; "b.so"]%string)))
  = inl tt.
Proof.
  apply (validate_after_loading sample_library_symbols sample_vm_name
           sample_vm_version ["a.so"; "b.so"]%string sample_loader
           sample_fns "x" eq_refl).
  left. exists (dll_import "a.so" "evmc_create_first").
  split; [now left|reflexivity].
Defined.

Lemma exec_negative_gasLeft_witness :
  io_gas (snd (sample_exec EVMC_SUCCESS 0 sample_ext)) = 2 ^ 256 + (0 - 3).
Proof.
  refine (proj1 (exec_negative_gasLeft false false
                   (fixed_backend EVMC_SUCCESS) sample_LegacyVM_exec
                   sample_globals sample_adapter 0 sample_ext _ _ _)).
  - reflexivity.
  - left. reflexivity.
  - vm_compute. split; [discriminate|reflexivity].
Defined.

End VM.
